(** * Checkout-zone tracking, product resolution and stock notification

    A shallow embedding of the application logic of
    [project/project/model/detect.py]: the enter/exit anchors kept by [run]
    across frames, the empty-frame counter, the stock request sent by
    [send_request] (with [remove_plural]), and the label resolver
    [productDetection] (with [findProductIndex] and [findMaxTwoClass]).

    Python data is modelled as the interpreter has it: [float] is IEEE-754
    binary64 (Rocq's primitive floats), [int] is [Z], [str] is a sequence of
    Unicode code points, [None]-able variables are [option]s. *)

From Stdlib Require Import ZArith Bool String Ascii List Lia Floats DecimalString
  Sorted.
Import ListNotations.
Set Warnings "-inexact-float".

Local Open Scope Z_scope.

(** ** Python strings *)

(** A Unicode code point. *)
Definition char := N.

(** Python's [str]. *)
Definition str := list char.

(** Reads the bytes of a UTF-8 literal as code points, so that the names of
    the source can be written as they are in [detect.py]. *)
Fixpoint utf8_decode (bs : list N) : str :=
  match bs with
  | [] => []
  | b0 :: r0 =>
      if (b0 <? 0x80)%N then b0 :: utf8_decode r0
      else if (b0 <? 0xE0)%N then
        match r0 with
        | b1 :: r1 => ((b0 - 0xC0) * 64 + (b1 - 0x80))%N :: utf8_decode r1
        | _ => []
        end
      else if (b0 <? 0xF0)%N then
        match r0 with
        | b1 :: b2 :: r2 =>
            ((b0 - 0xE0) * 4096 + (b1 - 0x80) * 64 + (b2 - 0x80))%N :: utf8_decode r2
        | _ => []
        end
      else
        match r0 with
        | b1 :: b2 :: b3 :: r3 =>
            ((b0 - 0xF0) * 262144 + (b1 - 0x80) * 4096 + (b2 - 0x80) * 64 + (b3 - 0x80))%N
              :: utf8_decode r3
        | _ => []
        end
  end.

Definition u (lit : string) : str :=
  utf8_decode (map N_of_ascii (list_ascii_of_string lit)).

(** [a == b] on [str]. *)
Fixpoint str_eqb (a b : str) : bool :=
  match a, b with
  | [], [] => true
  | c :: a', d :: b' => (c =? d)%N && str_eqb a' b'
  | _, _ => false
  end.

(** ** The tracker of [run] (lines 125-129 and 181-204, 294-300) *)

(** One row of [det] as the tracking loop reads it: the normalized [xywh] box
    (the value of [(xyxy2xywh(...) / gn).view(-1).tolist()]), [conf], [cls]. *)
Record detection := Detection {
  box_x : float;
  box_y : float;
  box_w : float;
  box_h : float;
  conf : float;
  cls : Z
}.

(** The three variables [run] keeps across frames. *)
Record session := Session {
  enter_coordinates : option (float * float);
  exit_coordinates : option (float * float);
  noObjectCount : Z
}.

(** Lines 127-129: the values before the first frame. *)
Definition initial : session := Session None None 0.

(** One image of a batch: its detections [det] and the summary string [s] as
    it stands once the per-class counts have been appended (line 179). *)
Record frame := Frame {
  det : list detection;
  summary : str
}.

(** The arguments of the thread started at line 212. *)
Record thread_args := ThreadArgs {
  t_url : str;
  t_headers : list (str * str);
  t_cashier_id : Z;
  t_s : str
}.

(** A crossing: the local [difference] of line 202 and the thread it starts. *)
Record crossing := Crossing {
  difference : float * float;
  thread : thread_args
}.

Definition is_none {A : Type} (o : option A) : bool :=
  match o with None => true | Some _ => false end.

Definition is_some {A : Type} (o : option A) : bool :=
  match o with None => false | Some _ => true end.

(** [0.1 <= x <= 0.9] (line 187). *)
Definition in_zone (x : float) : bool :=
  (0.1 <=? x)%float && (x <=? 0.9)%float.

(** Lines 184-198: the body of the loop over the rows of [det]. *)
Definition track_detection (st : session) (d : detection) : session :=
  let x := box_x d in
  let y := box_y d in
  if is_none (enter_coordinates st) && in_zone x
  then Session (Some (x, y)) (exit_coordinates st) 0
  else Session (enter_coordinates st) (Some (x, y)) (noObjectCount st).

(** Lines 181-198: [for *xyxy, conf, cls in reversed(det)]. *)
Definition track_detections (st : session) (rows : list detection) : session :=
  fold_left track_detection (rev rows) st.

(** The condition of line 201. *)
Definition crossed (st : session) : bool :=
  match enter_coordinates st, exit_coordinates st with
  | Some en, Some ex => (0.6 <=? abs (fst ex - fst en))%float
  | _, _ => false
  end.

Definition url : str :=
  u "https://recognition-items-backend.up.railway.app/item/decrease".

Section Run.

(** The two arguments of [run] that the application adds to YOLOv5's. *)
Variable cashier_id : Z.
Variable auth_token : str.

(** Lines 207-210. *)
Definition headers : list (str * str) :=
  [(u "Authorization", u "Bearer " ++ auth_token)].

(** Lines 169-214 for one image of the batch: nothing when [len(det)] is 0;
    otherwise the loop over the rows, then the crossing test, which clears
    both anchors and starts the request thread. *)
Definition process_image (st : session) (f : frame) : session * option crossing :=
  if Nat.eqb (length (det f)) 0 then (st, None)
  else
    let st1 := track_detections st (det f) in
    match enter_coordinates st1, exit_coordinates st1 with
    | Some en, Some ex =>
        if (0.6 <=? abs (fst ex - fst en))%float
        then (Session None None (noObjectCount st1),
              Some (Crossing ((fst ex - fst en)%float, (snd ex - snd en)%float)
                             (ThreadArgs url headers cashier_id (summary f))))
        else (st1, None)
    | _, _ => (st1, None)
    end.

(** Lines 154-290: [for i, det in enumerate(pred)]. *)
Fixpoint process_images (st : session) (fs : list frame) : session * list crossing :=
  match fs with
  | [] => (st, [])
  | f :: rest =>
      let (st1, ev) := process_image st f in
      let (st2, evs) := process_images st1 rest in
      (st2, match ev with Some e => e :: evs | None => evs end)
  end.

(** Lines 294-300, which stand after the loop over [pred] and so read the
    [det] of the batch's last image. *)
Definition debounce (st : session) (last_det : list detection) : session :=
  if Nat.eqb (length last_det) 0 then
    let n := noObjectCount st + 1 in
    if (10 <=? n) && is_some (enter_coordinates st)
    then Session None None 0
    else Session (enter_coordinates st) (exit_coordinates st) n
  else st.

(** What one turn of [for path, im, im0s, vid_cap, s in dataset] receives from
    the detector: [pred] has one entry per image and the batch is never empty. *)
Record batch := Batch {
  first_image : frame;
  more_images : list frame
}.

Definition images (b : batch) : list frame := first_image b :: more_images b.

Definition last_image (b : batch) : frame := last (more_images b) (first_image b).

(** A batch of one image, as every source but a list of streams yields. *)
Definition single (f : frame) : batch := Batch f [].

(** One turn of the dataset loop (lines 130-300). *)
Definition iteration (st : session) (b : batch) : session * list crossing :=
  let (st1, evs) := process_images st (images b) in
  (debounce st1 (det (last_image b)), evs).

(** The dataset loop from a given state. *)
Fixpoint run_loop (st : session) (bs : list batch) : session * list crossing :=
  match bs with
  | [] => (st, [])
  | b :: rest =>
      let (st1, evs1) := iteration st b in
      let (st2, evs2) := run_loop st1 rest in
      (st2, evs1 ++ evs2)
  end.

(** [run]: the loop from the initial values. *)
Definition run (bs : list batch) : session * list crossing := run_loop initial bs.

(** The state in which an image is processed: after the batches [history] and
    the images [before] of its own batch. *)
Definition state_at (history : list batch) (before : list frame) : session :=
  fst (process_images (fst (run history)) before).

End Run.

(** ** Python values used by the request and the resolver *)

(** The exceptions the modelled code can raise. *)
Inductive exn :=
| ValueError
| TypeError
| IndexError
| ZeroDivisionError
| OverflowError
| RequestException.

(** A computation that returns a value or raises. *)
Definition result (A : Type) : Type := exn + A.

Definition ret {A : Type} (a : A) : result A := inr a.

Definition raise {A : Type} (e : exn) : result A := inl e.

Definition bind {A B : Type} (m : result A) (k : A -> result B) : result B :=
  match m with
  | inl e => inl e
  | inr a => k a
  end.

Notation "x <- m ;; k" := (bind m (fun x => k))
  (at level 61, m at next level, right associativity).

(** [str(n)] for an [int]. *)
Definition str_of_int (n : Z) : str :=
  u (NilZero.string_of_int (Z.to_int n)).

(** The conversion of an [int] operand of a float operation: the nearest
    binary64 value, ties to even; [OverflowError] when that is no finite
    value. *)
Definition float_of_int (n : Z) : result float :=
  let f := SF2Prim (binary_normalize prec emax n 0 false) in
  if is_infinity f then raise OverflowError else ret f.

(** [a / n] for a [float] [a] and an [int] [n]. *)
Definition float_div_int (a : float) (n : Z) : result float :=
  d <- float_of_int n ;;
  if n =? 0 then raise ZeroDivisionError else ret (a / d)%float.

(** [max(a, b)] on two floats: [b] replaces [a] only when [b > a]. *)
Definition max2 (a b : float) : float :=
  if (a <? b)%float then b else a.

(** [l[i]] for a list: negative indices count from the end. *)
Definition getitem {A : Type} (l : list A) (i : Z) : result A :=
  let n := Z.of_nat (length l) in
  let j := if i <? 0 then i + n else i in
  if (j <? 0) || (n <=? j) then raise IndexError
  else match nth_error l (Z.to_nat j) with
       | Some a => ret a
       | None => raise IndexError
       end.

(** [w.endswith(suffix)]. *)
Definition endswith (w suffix : str) : bool :=
  (length suffix <=? length w)%nat
  && str_eqb (skipn (length w - length suffix) w) suffix.

(** [w in items] for a list of strings. *)
Definition str_in (w : str) (items : list str) : bool :=
  existsb (str_eqb w) items.

(** ** The pattern of [send_request] and [re.search] (lines 331-333) *)

(** First code points of the runs of ten decimal digits (Unicode category Nd,
    Unicode 14.0), which [\d] matches in a [str] pattern. *)
Definition decimal_runs : list N :=
  [0x30; 0x660; 0x6f0; 0x7c0; 0x966; 0x9e6; 0xa66; 0xae6; 0xb66; 0xbe6; 0xc66;
   0xce6; 0xd66; 0xde6; 0xe50; 0xed0; 0xf20; 0x1040; 0x1090; 0x17e0; 0x1810;
   0x1946; 0x19d0; 0x1a80; 0x1a90; 0x1b50; 0x1bb0; 0x1c40; 0x1c50; 0xa620;
   0xa8d0; 0xa900; 0xa9d0; 0xa9f0; 0xaa50; 0xabf0; 0xff10; 0x104a0; 0x10d30;
   0x11066; 0x110f0; 0x11136; 0x111d0; 0x112f0; 0x11450; 0x114d0; 0x11650;
   0x116c0; 0x11730; 0x118e0; 0x11950; 0x11c50; 0x11d50; 0x11da0; 0x16a60;
   0x16ac0; 0x16b50; 0x1d7ce; 0x1d7d8; 0x1d7e2; 0x1d7ec; 0x1d7f6; 0x1e140;
   0x1e2f0; 0x1e950; 0x1fbf0]%N.

Definition isdecimal (c : char) : bool :=
  existsb (fun lo => (lo <=? c)%N && (c <? lo + 10)%N) decimal_runs.

(** The code points [\s] matches in a [str] pattern. *)
Definition whitespace : list N :=
  [0x9; 0xa; 0xb; 0xc; 0xd; 0x1c; 0x1d; 0x1e; 0x1f; 0x20; 0x85; 0xa0; 0x1680;
   0x2000; 0x2001; 0x2002; 0x2003; 0x2004; 0x2005; 0x2006; 0x2007; 0x2008;
   0x2009; 0x200a; 0x2028; 0x2029; 0x202f; 0x205f; 0x3000]%N.

Definition isspace (c : char) : bool :=
  existsb (N.eqb c) whitespace.

(** What matches one character. *)
Inductive atom :=
| Digit               (* \d *)
| Space               (* \s *)
| Lit (c : char)      (* a literal character *)
| Dot.                (* . : anything but a newline *)

(** The pieces a pattern of this kind is a sequence of. *)
Inductive node :=
| One (a : atom)       (* a *)
| Many (a : atom)      (* a+ : one or more, longest first *)
| Group (a : atom)     (* (a+?) : group 1, one or more, shortest first *)
| Ahead (a : atom).    (* (?=a) : the next character matches a, not consumed *)

Definition atom_matches (a : atom) (c : char) : bool :=
  match a with
  | Digit => isdecimal c
  | Space => isspace c
  | Lit d => (c =? d)%N
  | Dot => negb (c =? 0xa)%N
  end.

(** [a+] followed by the rest [k]: take one more character as long as that
    leads to a match, else go on with [k] from here. *)
Fixpoint many {R : Type} (a : atom) (k : str -> option R) (s : str) : option R :=
  match s with
  | [] => None
  | c :: s' =>
      if atom_matches a c then
        match many a k s' with
        | Some r => Some r
        | None => k s'
        end
      else None
  end.

(** [(a+?)] followed by the rest [k]: go on with [k] as soon as one character
    is taken, and take one more only when that fails. [taken] is the text of
    the group so far. *)
Fixpoint fewest {R : Type} (a : atom) (k : str -> str -> option R) (taken s : str)
  : option R :=
  match s with
  | [] => None
  | c :: s' =>
      if atom_matches a c then
        match k (taken ++ [c]) s' with
        | Some r => Some r
        | None => fewest a k (taken ++ [c]) s'
        end
      else None
  end.

(** The match of a pattern at the start of [s]: the text of group 1, when the
    pattern matches there ([g] is the group's text so far). *)
Fixpoint match_at (p : list node) (g : option str) (s : str) : option (option str) :=
  match p with
  | [] => Some g
  | One a :: p' =>
      match s with
      | c :: s' => if atom_matches a c then match_at p' g s' else None
      | [] => None
      end
  | Many a :: p' => many a (match_at p' g) s
  | Group a :: p' => fewest a (fun taken rest => match_at p' (Some taken) rest) [] s
  | Ahead a :: p' =>
      match s with
      | c :: _ => if atom_matches a c then match_at p' g s else None
      | [] => None
      end
  end.

(** [re.search(p, s)]: the match at the leftmost position that has one. The
    result is the match's group 1. *)
Fixpoint re_search (p : list node) (s : str) : option (option str) :=
  match match_at p None s with
  | Some g => Some g
  | None =>
      match s with
      | [] => None
      | _ :: s' => re_search p s'
      end
  end.

Definition lit (c : string) : atom :=
  Lit (hd 0%N (u c)).

(** Line 331: [r"\d:\s\d+x\d+\s\d+\s(.+?)(?=,)"]. *)
Definition pattern : list node :=
  [One Digit; One (lit ":"); One Space; Many Digit; One (lit "x"); Many Digit;
   One Space; Many Digit; One Space; Group Dot; Ahead (lit ",")].

(** ** [remove_plural] and [send_request] (lines 311-349) *)

(** Lines 313-317. *)
Definition items_to_check : list str :=
  [u "Ülker Salty Pretzels"; u "Doğadan Sage 20s"; u "Capri-Sun Safari Fruits"].

(** Lines 324-328: the value the local name [word] is bound to when the body
    of [remove_plural] ends. *)
Definition remove_plural_word (word : str) : str :=
  if str_in word items_to_check then
    if endswith word (u "ss") then removelast word else word
  else removelast word.

(** [remove_plural(word)]: the body rebinds its local [word] and ends without
    a [return], so the call's value is [None] and the caller's string is the
    one it passed. *)
Definition remove_plural (word : str) : option str :=
  let word := remove_plural_word word in
  None.

(** The JSON body of the request (lines 341-344). *)
Record body := Body {
  cashierId : Z;
  itemName : str
}.

(** What [requests.post] answers. *)
Record response := Response {
  status_code : Z;
  text : str
}.

(** What a call of [send_request] does, in order. *)
Inductive event :=
| Printed (line : str)
| Posted (to : str) (json : body) (hdrs : list (str * str))
| Raised (e : exn).

Section Dispatch.

(** The backend: the answer to a request, or [None] when [requests.post]
    raises instead of answering. *)
Variable backend : str -> body -> list (str * str) -> option response.

(** Lines 330-349. *)
Definition send_request (url : str) (headers : list (str * str)) (cashier_id : Z)
  (s : str) : list event :=
  match re_search pattern s with
  | None => []
  | Some None => [Raised TypeError]
  | Some (Some result) =>
      let _ := remove_plural result in
      let data := Body cashier_id result in
      Printed (result ++ u " is detected. Sending request...")
      :: Posted url data headers
      :: match backend url data headers with
         | None => [Raised RequestException]
         | Some response =>
             if status_code response =? 200
             then [Printed (u "Stock is decreased successfully.")]
             else [Printed (u "Status code: " ++ str_of_int (status_code response)
                            ++ u " Message: " ++ text response)]
         end
  end.

(** The thread of a crossing runs [send_request] on its arguments. *)
Definition run_thread (c : crossing) : list event :=
  let a := thread c in
  send_request (t_url a) (t_headers a) (t_cashier_id a) (t_s a).

End Dispatch.

(** ** The resolver: [PredictedProducts], [findProductIndex],
    [findMaxTwoClass], [productDetection] (lines 352-445) *)

(** Lines 352-356: an object of the class. *)
Record PredictedProducts := Product {
  productName : str;
  count : Z;
  totalPred : float
}.

(** Lines 357-359: [self.set(count, totalPred)], as the object it leaves. *)
Definition set (self : PredictedProducts) (c : Z) (t : float) : PredictedProducts :=
  Product (productName self) (count self + c) (totalPred self + t)%float.

Definition getName (self : PredictedProducts) : str := productName self.

Definition getCount (self : PredictedProducts) : Z := count self.

Definition getTotalPred (self : PredictedProducts) : float := totalPred self.

(** Lines 366-368. *)
Definition getPred (self : PredictedProducts) : result (str * float) :=
  pred_se <- float_div_int (totalPred self) (count self) ;;
  ret (productName self, pred_se).

(** Lines 370-374, the loop from index [i] on. *)
Fixpoint findProductIndex_from (i : Z) (predictedProducts : list PredictedProducts)
  (name : str) : Z :=
  match predictedProducts with
  | [] => -1
  | p :: rest =>
      if str_eqb (getName p) name then i
      else findProductIndex_from (i + 1) rest name
  end.

Definition findProductIndex (predictedProducts : list PredictedProducts)
  (name : str) : Z :=
  findProductIndex_from 0 predictedProducts name.

(** The four locals of [findMaxTwoClass]. *)
Record maxima := Maxima {
  maxIndex1_se : Z;
  maxIndex2_se : Z;
  maxCount1_se : Z;
  maxCount2_se : Z
}.

(** Lines 386-392: the body of the loop, at index [i]. *)
Definition scan_step (m : maxima) (i : Z) (p : PredictedProducts) : maxima :=
  if maxCount1_se m <? getCount p
  then Maxima i (maxIndex2_se m) (getCount p) (maxCount2_se m)
  else if maxCount2_se m <? getCount p
  then Maxima (maxIndex1_se m) i (maxCount1_se m) (getCount p)
  else m.

(** Lines 385-392: the loop from index [i] on. *)
Fixpoint scan (predictedProducts : list PredictedProducts) (i : Z) (m : maxima)
  : maxima :=
  match predictedProducts with
  | [] => m
  | p :: rest => scan rest (i + 1) (scan_step m i p)
  end.

(** Lines 385-394: what the function returns when the test of line 382 fails. *)
Definition scanned (predictedProducts : list PredictedProducts) : Z * Z :=
  let m := scan predictedProducts 0 (Maxima 0 0 0 0) in
  (maxIndex1_se m, maxIndex2_se m).

(** The test of line 382. *)
Definition first_two (predictedProducts : list PredictedProducts) : bool :=
  Z.of_nat (length predictedProducts) =? 2.

(** Lines 376-394. *)
Definition findMaxTwoClass (predictedProducts : list PredictedProducts) : Z * Z :=
  if first_two predictedProducts then (0, 1) else scanned predictedProducts.

(** [s.split(' ')]. *)
Fixpoint split_space (s : str) : list str :=
  match s with
  | [] => [[]]
  | c :: rest =>
      if (c =? 0x20)%N then [] :: split_space rest
      else match split_space rest with
           | part :: parts => (c :: part) :: parts
           | [] => [[c]]
           end
  end.

(** [' '.join(parts)]. *)
Fixpoint join_space (parts : list str) : str :=
  match parts with
  | [] => []
  | [part] => part
  | part :: rest => part ++ 0x20%N :: join_space rest
  end.

(** [l[i] = v] for an index already read with [getitem]. *)
Fixpoint setitem {A : Type} (l : list A) (i : nat) (v : A) : list A :=
  match l, i with
  | [], _ => []
  | _ :: rest, O => v :: rest
  | a :: rest, S j => a :: setitem rest j v
  end.

(** How [productDetection] ends: which branch of lines 430-445 ran, with the
    locals it bound. *)
Inductive verdict :=
| NoProduct                                         (* neither branch *)
| OneProduct                                        (* line 443 *)
| CountGap (maxIndex1_se maxIndex2_se : Z)          (* line 435 *)
| BestMean (maxName_se : str) (maxPred_se : float). (* lines 438-441 *)

(** The locals of [productDetection] when it ends. The Python function has no
    [return]: its value is [None] whatever they hold. *)
Record resolution := Resolution {
  predUniqueCls : list PredictedProducts;
  outcome : verdict
}.

Section Resolver.

(** Python's [float(text)]. *)
Variable float_of_str : str -> result float.

(** Lines 404-410: the lists [products_se] and [predictions_se]. *)
Fixpoint confident (predictedLabels_se : list str) : result (list str * list str) :=
  match predictedLabels_se with
  | [] => ret ([], [])
  | item :: rest =>
      let parts_se := split_space item in
      let product_se := join_space (removelast parts_se) in
      let prediction_se := last parts_se [] in
      c <- float_of_str prediction_se ;;
      kept <- confident rest ;;
      if (0.50 <=? c)%float
      then ret (product_se :: fst kept, prediction_se :: snd kept)
      else ret kept
  end.

(** Lines 418-423: the body of the second loop. *)
Definition vote (predUniqueCls : list PredictedProducts) (x prediction : str)
  : result (list PredictedProducts) :=
  let index := findProductIndex predUniqueCls x in
  if index =? -1 then
    c <- float_of_str prediction ;;
    ret (predUniqueCls ++ [Product x 1 c])
  else
    p <- getitem predUniqueCls index ;;
    c <- float_of_str prediction ;;
    ret (setitem predUniqueCls (Z.to_nat index) (set p 1 c)).

(** Lines 417-423. *)
Fixpoint votes (predUniqueCls : list PredictedProducts) (samples : list (str * str))
  : result (list PredictedProducts) :=
  match samples with
  | [] => ret predUniqueCls
  | (x, prediction) :: rest =>
      next <- vote predUniqueCls x prediction ;;
      votes next rest
  end.

(** Lines 430-445. *)
Definition choose (predUniqueCls : list PredictedProducts) : result verdict :=
  let n := Z.of_nat (length predUniqueCls) in
  if 1 <? n then
    let (maxIndex1, maxIndex2) := findMaxTwoClass predUniqueCls in
    p1 <- getitem predUniqueCls maxIndex1 ;;
    p2 <- getitem predUniqueCls maxIndex2 ;;
    if 3 <? getCount p1 - getCount p2 then ret (CountGap maxIndex1 maxIndex2)
    else
      r1 <- getPred p1 ;;
      r2 <- getPred p2 ;;
      let maxPred := max2 (snd r1) (snd r2) in
      let maxName := if (maxPred =? snd r1)%float then fst r1 else fst r2 in
      ret (BestMean maxName maxPred)
  else if n =? 1 then ret OneProduct
  else ret NoProduct.

(** Lines 396-445. *)
Definition productDetection (predictedLabels_se : list str) : result resolution :=
  kept <- confident predictedLabels_se ;;
  uniq <- votes [] (combine (fst kept) (snd kept)) ;;
  v <- choose uniq ;;
  ret (Resolution uniq v).

End Resolver.



(** The value of [int(digits)] for a run of ASCII digits, continuing [acc]. *)
Fixpoint digits (acc : Z) (ds : str) : option Z :=
  match ds with
  | [] => Some acc
  | c :: rest =>
      if (0x30 <=? c)%N && (c <=? 0x39)%N
      then digits (acc * 10 + Z.of_N (c - 0x30)) rest
      else None
  end.

(** The text before the first point and, when there is one, the text after. *)
Fixpoint at_point (s : str) : str * option str :=
  match s with
  | [] => ([], None)
  | c :: rest =>
      if (c =? 0x2e)%N then ([], Some rest)
      else let (a, b) := at_point rest in (c :: a, b)
  end.

(** [float(text)] on the numerals that the [.2f] format of line 249 writes:
    digits, a point, digits. With at most 15 digits the numerator and the
    power of ten are exact floats, and their quotient is the nearest float to
    the numeral, which is what [float] returns. Other text raises
    [ValueError] here; Python's [float] reads more forms. *)
Definition float_of_numeral (s : str) : result float :=
  let (whole, frac) := at_point s in
  let frac := match frac with Some f => f | None => [] end in
  match whole, digits 0 (whole ++ frac) with
  | _ :: _, Some n =>
      if (length (whole ++ frac) <=? 15)%nat
      then float_div_int (SF2Prim (binary_normalize prec emax n 0 false))
                         (10 ^ Z.of_nat (length frac))
      else raise ValueError
  | _, _ => raise ValueError
  end.

(** A label as line 249 writes it: [f'{names[c]} {conf:.2f}']. *)
Definition label (name conf2f : string) : str :=
  u name ++ 0x20%N :: u conf2f.

(** ** The summary line of an image ([run], lines 177-179) *)

(** Insertion of a class id into an ascending list without repeats. *)
Fixpoint insert_class (c : Z) (cs : list Z) : list Z :=
  match cs with
  | [] => [c]
  | d :: rest =>
      if c <? d then c :: cs
      else if c =? d then cs
      else d :: insert_class c rest
  end.

(** [det[:, 5].unique()]: the class ids of the rows, ascending, each once. *)
Definition unique (classes : list Z) : list Z :=
  fold_right insert_class [] classes.

(** [(det[:, 5] == c).sum()]: the number of rows of class [c]. *)
Definition class_count (rows : list detection) (c : Z) : Z :=
  Z.of_nat (length (filter (fun d => cls d =? c) rows)).

Section Summary.

(** [names]: the model's class names; [None] where [names[int(c)]] raises. *)
Variable names : Z -> option str.

(** Line 179: [s += f"{n} {names[int(c)]}{'s' * (n > 1)}, "]. *)
Definition add_class (rows : list detection) (s : str) (c : Z) : option str :=
  let n := class_count rows c in
  match names c with
  | None => None
  | Some name =>
      Some (s ++ str_of_int n ++ u " " ++ name
              ++ (if 1 <? n then u "s" else []) ++ u ", ")
  end.

(** Lines 177-179: the loop over the classes. *)
Fixpoint add_classes (rows : list detection) (s : str) (cs : list Z) : option str :=
  match cs with
  | [] => Some s
  | c :: rest =>
      match add_class rows s c with
      | None => None
      | Some s' => add_classes rows s' rest
      end
  end.

(** Lines 177-179 on the text [s] of line 165 and the rows of [det]. *)
Definition summarise (s : str) (rows : list detection) : option str :=
  add_classes rows s (unique (map cls rows)).

End Summary.

(** ** The launcher: [login] and [execute_command] of [login.py] *)

(** [s.split()]: the maximal runs of non-whitespace characters. *)
Fixpoint split_ws (s : str) : list str :=
  match s with
  | [] => []
  | c :: rest =>
      if isspace c then split_ws rest
      else
        match rest with
        | [] => [[c]]
        | d :: _ =>
            if isspace d then [c] :: split_ws rest
            else match split_ws rest with
                 | w :: ws => (c :: w) :: ws
                 | [] => [[c]]
                 end
        end
  end.

(** Line 66 of [login.py]. *)
Definition argumanlar (username auth_token : str) : str :=
  u "--source 0 --weights best.pt --img 512 --conf 0.5 --cashier-id " ++ username
    ++ u " --auth-token " ++ auth_token.

(** Line 70 of [login.py]: the list handed to [subprocess.Popen]. *)
Definition popen_args (username auth_token : str) : list str :=
  [u "python"; u "detect.py"] ++ split_ws (argumanlar username auth_token).

(** A value decoded by [response.json()]. *)
#[warnings="-register-all"]
Inductive json :=
| JNull
| JBool (b : bool)
| JNumber (literal : str)
| JString (s : str)
| JArray (items : list json)
| JObject (members : list (str * json)).

(** What [login] can raise. *)
Inductive login_error :=
| KeyError (key : str)      (* a key the object lacks *)
| NotSubscriptable          (* [json_response[...]] on what is no object *)
| DecodeError               (* [response.json()] on a body that is no JSON *)
| ConnectionFailed.         (* [requests.post] *)

(** The members of a decoded object by key. *)
Fixpoint member (key : str) (members : list (str * json)) : option json :=
  match members with
  | [] => None
  | (k, v) :: rest => if str_eqb k key then Some v else member key rest
  end.

(** [json_response[key]] for a string key. *)
Definition subscript (j : json) (key : str) : login_error + json :=
  match j with
  | JObject members =>
      match member key members with
      | Some v => inr v
      | None => inl (KeyError key)
      end
  | _ => inl NotSubscriptable
  end.

(** [v == "CASHIER"]. *)
Definition is_cashier (v : json) : bool :=
  match v with
  | JString s => str_eqb s (u "CASHIER")
  | _ => false
  end.

(** The answer of the login endpoint: the status and the decoded body
    ([None] when the body does not decode). *)
Record login_answer := LoginAnswer {
  answer_status : Z;
  answer_json : option json
}.

(** What [login] does, in order. *)
Inductive ui_event :=
| PostedLogin (to : str) (username password : str)
| ShowInfo (title message : str)
| ShowError (title message : str)
| Withdrawn
| OpenedWindow (username : str) (auth_token : json)
| LoginRaised (e : login_error).

Section Login.

(** The login endpoint; [None] when [requests.post] raises. *)
Variable endpoint : str -> str -> str -> option login_answer.

(** How [str.format] writes a decoded value that is no string. *)
Variable written : json -> str.

Definition formatted (v : json) : str :=
  match v with
  | JString s => s
  | _ => written v
  end.

(** Lines 8-42 of [login.py], for the texts of the two entry fields. *)
Definition login (username password : str) : list ui_event :=
  let url := u "https://recognition-items-backend.up.railway.app/login" in
  PostedLogin url username password
  :: match endpoint url username password with
     | None => [LoginRaised ConnectionFailed]
     | Some response =>
         if answer_status response =? 200 then
           match answer_json response with
           | None => [LoginRaised DecodeError]
           | Some json_response =>
               match subscript json_response (u "role") with
               | inl e => [LoginRaised e]
               | inr role =>
               match subscript json_response (u "name") with
               | inl e => [LoginRaised e]
               | inr name =>
               match subscript json_response (u "surname") with
               | inl e => [LoginRaised e]
               | inr surname =>
               match subscript json_response (u "token") with
               | inl e => [LoginRaised e]
               | inr auth_token =>
                   if is_cashier role then
                     [ShowInfo (u "Logged Successfully")
                               (u "Welcome, " ++ formatted name ++ u " " ++ formatted surname);
                      Withdrawn;
                      OpenedWindow username auth_token]
                   else
                     [ShowError (u "Error") (u "Only cashiers can use this application.")]
               end end end end
           end
         else [ShowError (u "Error") (u "Incorrect username or password.")]
     end.

End Login.

(** ** A predicate used in the statements below *)

(** What the locals of [findMaxTwoClass] hold once the loop has read the
    objects [seen], each with a count of at least 1: the first index is the
    first position of the highest count, the second index is a position of
    the list, and the two differ as soon as a second maximum was recorded. *)
Definition scan_state (seen : list PredictedProducts) (m : maxima) : Prop :=
  (seen = [] /\ m = Maxima 0 0 0 0)
  \/ (seen <> []
      /\ 0 <= maxIndex1_se m
      /\ (exists p1, nth_error seen (Z.to_nat (maxIndex1_se m)) = Some p1
                     /\ count p1 = maxCount1_se m)
      /\ 1 <= maxCount1_se m
      /\ (forall p, In p seen -> count p <= maxCount1_se m)
      /\ (forall j q, (j < Z.to_nat (maxIndex1_se m))%nat ->
                      nth_error seen j = Some q -> count q < maxCount1_se m)
      /\ 0 <= maxIndex2_se m < Z.of_nat (length seen)
      /\ 0 <= maxCount2_se m
      /\ (maxCount2_se m = 0 ->
          maxIndex2_se m = 0 /\ maxIndex1_se m = Z.of_nat (length seen) - 1)
      /\ (0 < maxCount2_se m -> maxIndex2_se m <> maxIndex1_se m)).

(** ** Inputs used in the examples below *)

(** A detection whose box is centred at [(x, y)]. *)
Definition centred (x y : float) : detection :=
  Detection x y 0.1%float 0.2%float 0.9%float 0.

(** An image with one detection, and its summary as a webcam run writes it. *)
Definition seen_at (x y : float) : frame :=
  Frame [centred x y] (u "0: 384x512 1 Rexona Roll On, ").

(** An image with no detection. *)
Definition nothing_seen : frame :=
  Frame [] (u "0: 384x512 ").

(** The buffer of the worked example: A 0.60, A 0.70, B 0.40, B 0.90. *)
Definition worked_buffer : list str :=
  [label "A" "0.60"; label "A" "0.70"; label "B" "0.40"; label "B" "0.90"].

(** Three samples of two products, the rarer one first. *)
Definition three_samples : list str :=
  [label "B" "0.90"; label "A" "0.60"; label "A" "0.70"].

(** Two samples of one product. *)
Definition two_samples : list str :=
  [label "A" "0.60"; label "A" "0.70"].

(** Three products seen once, twice and three times, in that order. *)
Definition ascending_counts : list str :=
  [label "A" "0.99"; label "B" "0.50"; label "B" "0.50";
   label "C" "0.60"; label "C" "0.60"; label "C" "0.60"].

(** * Properties *)

(** ** The tracker *)

Lemma crossed_spec (st : session) :
  crossed st = true <->
  exists en ex,
    enter_coordinates st = Some en /\ exit_coordinates st = Some ex
    /\ (0.6 <=? abs (fst ex - fst en))%float = true.
Proof.
  unfold crossed. split.
  - destruct (enter_coordinates st) as [en|]; [|discriminate].
    destruct (exit_coordinates st) as [ex|]; [|discriminate].
    intros H. exists en, ex. auto.
  - intros (en & ex & -> & -> & H). exact H.
Qed.

(** What [process_image] does, read off the crossing test. *)
Lemma process_image_cases (cashier_id : Z) (auth_token : str) (st : session) (f : frame) :
  let st1 := track_detections st (det f) in
  (det f = [] /\ process_image cashier_id auth_token st f = (st, None))
  \/ (det f <> [] /\ crossed st1 = false
      /\ process_image cashier_id auth_token st f = (st1, None))
  \/ (det f <> [] /\ crossed st1 = true
      /\ exists ev, process_image cashier_id auth_token st f
                    = (Session None None (noObjectCount st1), Some ev)).
Proof.
  unfold process_image, crossed. destruct (det f) as [|d rows] eqn:Hdet.
  - left. auto.
  - right. cbn [length Nat.eqb].
    destruct (enter_coordinates (track_detections st (d :: rows))) as [en|];
      [|left; repeat split; congruence].
    destruct (exit_coordinates (track_detections st (d :: rows))) as [ex|];
      [|left; repeat split; congruence].
    destruct (0.6 <=? abs (fst ex - fst en))%float.
    + right. repeat split; try congruence. eexists. reflexivity.
    + left. repeat split; congruence.
Qed.

(** The crossing test fails in every state the loop leaves behind. *)
Lemma process_image_quiet (cashier_id : Z) (auth_token : str) (st : session) (f : frame) :
  crossed st = false ->
  crossed (fst (process_image cashier_id auth_token st f)) = false.
Proof.
  intros Hst.
  destruct (process_image_cases cashier_id auth_token st f)
    as [[_ ->] | [(_ & Hc & ->) | (_ & _ & ev & ->)]]; auto.
Qed.

Lemma process_images_quiet (cashier_id : Z) (auth_token : str) (fs : list frame) :
  forall st, crossed st = false ->
             crossed (fst (process_images cashier_id auth_token st fs)) = false.
Proof.
  induction fs as [|f fs IH]; intros st Hst; [exact Hst|].
  cbn [process_images].
  pose proof (process_image_quiet cashier_id auth_token st f Hst) as H1.
  destruct (process_image cashier_id auth_token st f) as [st1 ev].
  specialize (IH st1 H1).
  destruct (process_images cashier_id auth_token st1 fs) as [st2 evs].
  exact IH.
Qed.

Lemma debounce_quiet (st : session) (last_det : list detection) :
  crossed st = false -> crossed (debounce st last_det) = false.
Proof.
  intros Hst. unfold debounce.
  destruct (Nat.eqb (length last_det) 0); [|exact Hst].
  destruct ((10 <=? noObjectCount st + 1) && is_some (enter_coordinates st));
    [reflexivity | exact Hst].
Qed.

Lemma iteration_quiet (cashier_id : Z) (auth_token : str) (st : session) (b : batch) :
  crossed st = false ->
  crossed (fst (iteration cashier_id auth_token st b)) = false.
Proof.
  intros Hst. unfold iteration.
  pose proof (process_images_quiet cashier_id auth_token (images b) st Hst) as H.
  destruct (process_images cashier_id auth_token st (images b)) as [st1 evs].
  apply debounce_quiet. exact H.
Qed.

Lemma run_loop_quiet (cashier_id : Z) (auth_token : str) (bs : list batch) :
  forall st, crossed st = false ->
             crossed (fst (run_loop cashier_id auth_token st bs)) = false.
Proof.
  induction bs as [|b bs IH]; intros st Hst; [exact Hst|].
  cbn [run_loop].
  pose proof (iteration_quiet cashier_id auth_token st b Hst) as H1.
  destruct (iteration cashier_id auth_token st b) as [st1 evs1].
  specialize (IH st1 H1).
  destruct (run_loop cashier_id auth_token st1 bs) as [st2 evs2].
  exact IH.
Qed.

Lemma state_at_quiet (cashier_id : Z) (auth_token : str)
  (history : list batch) (before : list frame) :
  crossed (state_at cashier_id auth_token history before) = false.
Proof.
  unfold state_at, run. apply process_images_quiet, run_loop_quiet. reflexivity.
Qed.

(** The anchors survive [debounce] only as they were: it never sets one. *)
Lemma debounce_keeps_cleared (st : session) (last_det : list detection) :
  enter_coordinates st = None -> exit_coordinates st = None ->
  enter_coordinates (debounce st last_det) = None
  /\ exit_coordinates (debounce st last_det) = None.
Proof.
  intros He Hx. unfold debounce.
  destruct (Nat.eqb (length last_det) 0); [|auto].
  destruct ((10 <=? noObjectCount st + 1) && is_some (enter_coordinates st)); auto.
Qed.

(** C1. For every image processed in a run of the loop, a crossing is raised
    exactly when, once the image's detections have been iterated, both
    anchors are set and the absolute horizontal displacement between them is
    at least 0.6; and when one is raised both anchors are unset in the state
    handed on, also after the empty-frame step that may follow. *)
Theorem crossing_fires_iff :
  forall (cashier_id : Z) (auth_token : str)
         (history : list batch) (before : list frame) (f : frame),
    let st := state_at cashier_id auth_token history before in
    let st1 := track_detections st (det f) in
    let after := process_image cashier_id auth_token st f in
    (snd after <> None <->
       exists en ex,
         enter_coordinates st1 = Some en /\ exit_coordinates st1 = Some ex
         /\ (0.6 <=? abs (fst ex - fst en))%float = true)
    /\ (snd after <> None ->
          enter_coordinates (fst after) = None
          /\ exit_coordinates (fst after) = None
          /\ forall last_det,
               enter_coordinates (debounce (fst after) last_det) = None
               /\ exit_coordinates (debounce (fst after) last_det) = None).
Proof.
  intros cashier_id auth_token history before f st st1 after.
  pose proof (state_at_quiet cashier_id auth_token history before) as Hq.
  fold st in Hq.
  rewrite <- crossed_spec.
  destruct (process_image_cases cashier_id auth_token st f)
    as [[Hdet Hp] | [(Hdet & Hc & Hp) | (Hdet & Hc & ev & Hp)]];
    subst after; rewrite Hp; cbn [fst snd].
  - assert (st1 = st) as -> by (subst st1; rewrite Hdet; reflexivity).
    rewrite Hq. split; [split|]; intros H; congruence.
  - fold st1 in Hc. rewrite Hc. split; [split|]; intros H; congruence.
  - fold st1 in Hc. rewrite Hc. split; [split; intros _; congruence|].
    intros _. repeat split; apply debounce_keeps_cleared; reflexivity.
Qed.

Lemma track_detection_cases (st : session) (d : detection) :
  (enter_coordinates st = None /\ in_zone (box_x d) = true
   /\ track_detection st d = Session (Some (box_x d, box_y d)) (exit_coordinates st) 0)
  \/ ((enter_coordinates st <> None \/ in_zone (box_x d) = false)
      /\ track_detection st d
         = Session (enter_coordinates st) (Some (box_x d, box_y d)) (noObjectCount st)).
Proof.
  unfold track_detection.
  destruct (enter_coordinates st) as [en|]; cbn [is_none andb].
  - right. split; [left; discriminate | reflexivity].
  - destruct (in_zone (box_x d)); [left | right]; auto.
Qed.

(** C9. A detection assigns [enter_coordinates] only when it is unset and the
    centre's x lies in [0.1, 0.9]; the assigned point is the centre, and the
    same step sets [noObjectCount] to 0. *)
Theorem enter_assigned_only_in_zone :
  forall (st : session) (d : detection),
    enter_coordinates (track_detection st d) <> enter_coordinates st ->
    enter_coordinates st = None
    /\ (0.1 <=? box_x d)%float = true /\ (box_x d <=? 0.9)%float = true
    /\ enter_coordinates (track_detection st d) = Some (box_x d, box_y d)
    /\ noObjectCount (track_detection st d) = 0.
Proof.
  intros st d Hchanged.
  destruct (track_detection_cases st d) as [(Hnone & Hzone & Hstep) | (_ & Hstep)].
  - unfold in_zone in Hzone. apply andb_true_iff in Hzone as [Hlo Hhi].
    rewrite Hstep. cbn. auto.
  - rewrite Hstep in Hchanged. cbn in Hchanged. congruence.
Qed.

Lemma enter_assigned_only_in_zone_witness :
  enter_coordinates (track_detection initial (centred 0.5 0.5)) <> enter_coordinates initial
  /\ (enter_coordinates initial = None
      /\ (0.1 <=? box_x (centred 0.5 0.5))%float = true
      /\ (box_x (centred 0.5 0.5) <=? 0.9)%float = true
      /\ enter_coordinates (track_detection initial (centred 0.5 0.5))
         = Some (box_x (centred 0.5 0.5), box_y (centred 0.5 0.5))
      /\ noObjectCount (track_detection initial (centred 0.5 0.5)) = 0).
Proof.
  assert (H : enter_coordinates (track_detection initial (centred 0.5 0.5))
              <> enter_coordinates initial)
    by (vm_compute; discriminate).
  split; [exact H | exact (enter_assigned_only_in_zone initial (centred 0.5 0.5) H)].
Defined.

(** C8. The code at a detection that arrives while no enter point exists and
    whose centre lies outside [0.1, 0.9]: the [else] of line 194 runs and
    [exit_coordinates] is set although [enter_coordinates] is still unset.
    The stale exit point then completes a crossing with the next object that
    enters: seen once at x = 0.95 and then once at x = 0.2, the run raises a
    crossing of displacement 0.95 - 0.2. *)
Theorem idle_detection_sets_exit :
  track_detection initial (centred 0.05 0.5)
  = Session None (Some (0.05, 0.5)%float) 0
  /\ fst (run 7 (u "token") [single (seen_at 0.95 0.5)])
     = Session None (Some (0.95, 0.5)%float) 0
  /\ (exists ev,
        run 7 (u "token") [single (seen_at 0.95 0.5); single (seen_at 0.2 0.5)]
        = (initial, [ev])
        /\ difference ev = (0.95 - 0.2, 0.5 - 0.5)%float).
Proof.
  split; [reflexivity|]. split; [reflexivity|].
  eexists. split; reflexivity.
Qed.

(** The detections of an image that set no enter point leave
    [enter_coordinates] and [noObjectCount] as they were. *)
Lemma only_exit_updates (rows : list detection) :
  forall st,
    enter_coordinates st <> None
    \/ Forall (fun d => in_zone (box_x d) = false) rows ->
    enter_coordinates (fold_left track_detection rows st) = enter_coordinates st
    /\ noObjectCount (fold_left track_detection rows st) = noObjectCount st.
Proof.
  induction rows as [|d rows IH]; intros st H; [auto|].
  cbn [fold_left].
  destruct (track_detection_cases st d) as [(Hnone & Hzone & _) | (_ & Hstep)].
  - destruct H as [H | H]; [congruence|].
    inversion H; subst. congruence.
  - rewrite Hstep.
    destruct (IH (Session (enter_coordinates st) (Some (box_x d, box_y d))
                          (noObjectCount st))) as [He Hn].
    + destruct H as [H | H]; [left; exact H | right; inversion H; assumption].
    + rewrite He, Hn. auto.
Qed.

(** The counter after the detections of an image: reset by an enter point,
    else untouched. *)
Lemma track_detections_count (rows : list detection) :
  forall st,
    noObjectCount (fold_left track_detection rows st) = noObjectCount st
    \/ noObjectCount (fold_left track_detection rows st) = 0.
Proof.
  induction rows as [|d rows IH]; intros st; [left; reflexivity|].
  cbn [fold_left].
  destruct (track_detection_cases st d) as [(Hnone & _ & Hstep) | (Hkeep & Hstep)].
  - right. rewrite Hstep.
    destruct (only_exit_updates rows (Session (Some (box_x d, box_y d))
                                              (exit_coordinates st) 0)) as [_ Hn].
    + left. discriminate.
    + exact Hn.
  - rewrite Hstep. destruct (IH (Session (enter_coordinates st)
                                         (Some (box_x d, box_y d)) (noObjectCount st)))
      as [Hn | Hn]; [left | right]; exact Hn.
Qed.

(** C4, as the code has it. The empty-frame step runs once per turn of the
    loop and reads the last image of the batch. When that image has no
    detection, the step raises no crossing and the counter grows by exactly 1,
    unless the grown counter is at least 10 while an enter point is set, in
    which case both anchors are cleared and the counter is 0; when it has
    detections the step does nothing. An image without detections is itself
    skipped, so with one image per turn the turn is that step alone. And an
    image with detections none of which sets the enter point leaves the
    counter as it was. *)
Theorem empty_last_image_counts :
  forall (cashier_id : Z) (auth_token : str) (st : session) (b : batch),
    let before := process_images cashier_id auth_token st (images b) in
    let after := iteration cashier_id auth_token st b in
    (det (last_image b) = [] ->
       snd after = snd before
       /\ (10 <= noObjectCount (fst before) + 1
           /\ enter_coordinates (fst before) <> None ->
             fst after = Session None None 0)
       /\ (noObjectCount (fst before) + 1 < 10
           \/ enter_coordinates (fst before) = None ->
             fst after = Session (enter_coordinates (fst before))
                                 (exit_coordinates (fst before))
                                 (noObjectCount (fst before) + 1)))
    /\ (det (last_image b) <> [] -> after = before)
    /\ (more_images b = [] -> det (first_image b) = [] -> before = (st, []))
    /\ (forall st0 f,
          det f = [] -> process_image cashier_id auth_token st0 f = (st0, None))
    /\ (forall st0 f,
          det f <> [] ->
          enter_coordinates st0 <> None
          \/ Forall (fun d => in_zone (box_x d) = false) (det f) ->
          noObjectCount (fst (process_image cashier_id auth_token st0 f))
          = noObjectCount st0).
Proof.
  intros cashier_id auth_token st b before after. subst before after.
  unfold iteration.
  destruct (process_images cashier_id auth_token st (images b)) as [st1 evs] eqn:Hb.
  cbn [fst snd]. split; [|split; [|split; [|split]]].
  - intros Hlast. rewrite Hlast. unfold debounce. cbn [length Nat.eqb].
    split; [reflexivity|]. split.
    + intros [Hten Hset]. apply Z.leb_le in Hten. rewrite Hten.
      destruct (enter_coordinates st1); [reflexivity | congruence].
    + intros [Hlt | Hnone].
      * apply Z.leb_gt in Hlt. rewrite Hlt. reflexivity.
      * rewrite Hnone, andb_false_r. reflexivity.
  - intros Hlast. unfold debounce.
    destruct (det (last_image b)) as [|d rows]; [congruence | reflexivity].
  - intros Hone Hdet. destruct b as [f fs]. cbn in Hone, Hdet. subst fs.
    unfold images in Hb. cbn [first_image more_images process_images] in Hb.
    unfold process_image in Hb. rewrite Hdet in Hb. cbn in Hb. congruence.
  - intros st0 f Hdet. unfold process_image. rewrite Hdet. reflexivity.
  - intros st0 f Hdet Honly.
    assert (Hkeep : noObjectCount (track_detections st0 (det f)) = noObjectCount st0).
    { unfold track_detections. apply only_exit_updates.
      destruct Honly as [H | H]; [left; exact H | right; apply Forall_rev; exact H]. }
    destruct (process_image_cases cashier_id auth_token st0 f)
      as [[_ ->] | [(_ & _ & ->) | (_ & _ & ev & ->)]]; cbn [fst noObjectCount];
      [reflexivity | exact Hkeep | exact Hkeep].
Qed.

Lemma empty_last_image_counts_witness :
  (det (last_image (single nothing_seen)) = []
   /\ iteration 7 (u "token") initial (single nothing_seen)
      = (Session None None 1, []))
  /\ (det (last_image (Batch (seen_at 0.5 0.5) [nothing_seen])) = []
      /\ fst (iteration 7 (u "token") (Session (Some (0.2, 0.5)%float) None 9)
                        (Batch (seen_at 0.5 0.5) [nothing_seen]))
         = Session None None 0)
  /\ (det (seen_at 0.5 0.5) <> []
      /\ noObjectCount
           (fst (process_image 7 (u "token") (Session (Some (0.2, 0.5)%float) None 3)
                               (seen_at 0.5 0.5)))
         = 3).
Proof.
  split; [|split].
  - assert (Hlast : det (last_image (single nothing_seen)) = []) by reflexivity.
    split; [exact Hlast|].
    destruct (empty_last_image_counts 7 (u "token") initial (single nothing_seen))
      as (Hstep & _ & Hone & _).
    destruct (Hstep Hlast) as (Hev & _ & Hgrow).
    specialize (Hone eq_refl eq_refl).
    rewrite Hone in Hev, Hgrow. cbn [fst snd] in Hev, Hgrow.
    rewrite (surjective_pairing (iteration 7 (u "token") initial (single nothing_seen))).
    rewrite Hev, Hgrow; [reflexivity | left; reflexivity].
  - assert (Hlast : det (last_image (Batch (seen_at 0.5 0.5) [nothing_seen])) = [])
      by reflexivity.
    split; [exact Hlast|].
    destruct (empty_last_image_counts 7 (u "token")
                (Session (Some (0.2, 0.5)%float) None 9)
                (Batch (seen_at 0.5 0.5) [nothing_seen])) as (Hstep & _).
    destruct (Hstep Hlast) as (_ & Hreset & _).
    apply Hreset. split; [vm_compute; discriminate | vm_compute; discriminate].
  - assert (Hdet : det (seen_at 0.5 0.5) <> []) by discriminate.
    split; [exact Hdet|].
    destruct (empty_last_image_counts 7 (u "token") initial (single nothing_seen))
      as (_ & _ & _ & _ & Honly).
    apply Honly; [exact Hdet | left; discriminate].
Defined.

(** C4, as stated, fails for an image that is not the last of its batch. With
    two streams, an enter point set and the counter at 3, a turn whose first
    image has no detection and whose second has one leaves the counter at 3:
    it neither grows by 1 nor is the session reset. The same from the start
    of a run: an object enters, then such a turn, and the counter is still 0. *)
Lemma empty_image_not_last_does_not_count :
  det nothing_seen = []
  /\ images (Batch nothing_seen [seen_at 0.5 0.5]) = [nothing_seen; seen_at 0.5 0.5]
  /\ iteration 7 (u "token") (Session (Some (0.2, 0.5)%float) None 3)
               (Batch nothing_seen [seen_at 0.5 0.5])
     = (Session (Some (0.2, 0.5)%float) (Some (0.5, 0.5)%float) 3, [])
  /\ run 7 (u "token") [single (seen_at 0.2 0.5); Batch nothing_seen [seen_at 0.5 0.5]]
     = (Session (Some (0.2, 0.5)%float) (Some (0.5, 0.5)%float) 0, []).
Proof.
  repeat split.
Qed.

(** Once an image's detections have set the enter point, the counter is 0. *)
Lemma enter_set_in_frame (rows : list detection) :
  forall st,
    enter_coordinates st = None ->
    enter_coordinates (fold_left track_detection rows st) <> None ->
    noObjectCount (fold_left track_detection rows st) = 0.
Proof.
  induction rows as [|d rows IH]; intros st Hnone Hset; [cbn in Hset; congruence|].
  cbn [fold_left] in *.
  destruct (track_detection_cases st d) as [(_ & _ & Hstep) | (_ & Hstep)];
    rewrite Hstep in *.
  - destruct (only_exit_updates rows (Session (Some (box_x d, box_y d))
                                              (exit_coordinates st) 0)) as [_ Hn].
    + left. discriminate.
    + exact Hn.
  - apply IH; [exact Hnone | exact Hset].
Qed.

(** C7, as the code has it. When a crossing is raised, both anchors are
    cleared and [noObjectCount] is not reset by it: it is the value the
    image's detections left, which is the value from before the image when the
    enter point was set earlier, and 0 when this image set the enter point. *)
Theorem crossing_clears_anchors_only :
  forall (cashier_id : Z) (auth_token : str) (st : session) (f : frame),
    snd (process_image cashier_id auth_token st f) <> None ->
    let after := fst (process_image cashier_id auth_token st f) in
    enter_coordinates after = None
    /\ exit_coordinates after = None
    /\ noObjectCount after = noObjectCount (track_detections st (det f))
    /\ (enter_coordinates st <> None -> noObjectCount after = noObjectCount st)
    /\ (enter_coordinates st = None -> noObjectCount after = 0).
Proof.
  intros cashier_id auth_token st f Hfired after. subst after.
  destruct (process_image_cases cashier_id auth_token st f)
    as [[_ Hp] | [(_ & _ & Hp) | (_ & Hc & ev & Hp)]];
    rewrite Hp in *; cbn [fst snd] in *; try congruence.
  repeat split.
  - intros Hset. unfold track_detections. apply only_exit_updates. left. exact Hset.
  - intros Hnone. unfold track_detections. apply enter_set_in_frame; [exact Hnone|].
    apply crossed_spec in Hc as (en & ex & Hen & _). unfold track_detections in Hen.
    congruence.
Qed.

Lemma crossing_clears_anchors_only_witness :
  snd (process_image 7 (u "token") (Session (Some (0.2, 0.5)%float) None 1)
                     (seen_at 0.9 0.5)) <> None
  /\ enter_coordinates
       (fst (process_image 7 (u "token") (Session (Some (0.2, 0.5)%float) None 1)
                           (seen_at 0.9 0.5))) = None
  /\ noObjectCount
       (fst (process_image 7 (u "token") (Session (Some (0.2, 0.5)%float) None 1)
                           (seen_at 0.9 0.5))) = 1.
Proof.
  assert (H : snd (process_image 7 (u "token") (Session (Some (0.2, 0.5)%float) None 1)
                                 (seen_at 0.9 0.5)) <> None)
    by (vm_compute; discriminate).
  destruct (crossing_clears_anchors_only 7 (u "token")
              (Session (Some (0.2, 0.5)%float) None 1) (seen_at 0.9 0.5) H)
    as (He & _ & _ & Hkeep & _).
  split; [exact H|]. split; [exact He|].
  apply Hkeep. discriminate.
Defined.

(** C7, as stated, fails: an object enters at x = 0.2, one image without
    detections follows, and the object is next seen at x = 0.9. The third
    image raises the crossing, and the state it leaves has the counter at 1:
    the session is not the empty one. *)
Lemma crossing_keeps_counter :
  state_at 7 (u "token") [single (seen_at 0.2 0.5); single nothing_seen] []
  = Session (Some (0.2, 0.5)%float) None 1
  /\ (exists ev,
        process_image 7 (u "token") (Session (Some (0.2, 0.5)%float) None 1)
                      (seen_at 0.9 0.5)
        = (Session None None 1, Some ev))
  /\ noObjectCount (Session None None 1) <> noObjectCount initial.
Proof.
  split; [reflexivity|]. split; [eexists; reflexivity|].
  cbn. discriminate.
Qed.

(** ** The request *)

(** C10. When [re.search] finds no match of the pattern in the summary,
    [send_request] does nothing at all: no line is printed, no request is
    posted, nothing is raised. *)
Theorem no_match_no_request :
  forall (backend : str -> body -> list (str * str) -> option response)
         (to : str) (hdrs : list (str * str)) (cashier_id : Z) (s : str),
    re_search pattern s = None ->
    send_request backend to hdrs cashier_id s = [].
Proof.
  intros backend to hdrs cashier_id s Hnone.
  unfold send_request. rewrite Hnone. reflexivity.
Qed.

Lemma no_match_no_request_witness :
  re_search pattern (u "image 1/1 /data/shelf.jpg: 384x512 1 Rexona Roll On, ") = None
  /\ send_request (fun _ _ _ => Some (Response 200 (u "ok"))) url
                  (headers (u "token")) 7
                  (u "image 1/1 /data/shelf.jpg: 384x512 1 Rexona Roll On, ") = [].
Proof.
  assert (H : re_search pattern
                (u "image 1/1 /data/shelf.jpg: 384x512 1 Rexona Roll On, ") = None)
    by (vm_compute; reflexivity).
  split; [exact H|].
  exact (no_match_no_request (fun _ _ _ => Some (Response 200 (u "ok"))) url
           (headers (u "token")) 7
           (u "image 1/1 /data/shelf.jpg: 384x512 1 Rexona Roll On, ") H).
Defined.

(** C5. The code on the summary of an image with two "Rexona Roll On": the
    name matched is "Rexona Roll Ons"; [remove_plural] works out
    "Rexona Roll On" in its own local variable and returns [None]; the request
    carries the name as matched, with its trailing s. *)
Theorem request_keeps_plural :
  forall (backend : str -> body -> list (str * str) -> option response)
         (to : str) (hdrs : list (str * str)) (cashier_id : Z),
    re_search pattern (u "0: 384x512 2 Rexona Roll Ons, ")
    = Some (Some (u "Rexona Roll Ons"))
    /\ remove_plural_word (u "Rexona Roll Ons") = u "Rexona Roll On"
    /\ remove_plural (u "Rexona Roll Ons") = None
    /\ exists answer,
         send_request backend to hdrs cashier_id (u "0: 384x512 2 Rexona Roll Ons, ")
         = Printed (u "Rexona Roll Ons is detected. Sending request...")
           :: Posted to (Body cashier_id (u "Rexona Roll Ons")) hdrs
           :: answer.
Proof.
  intros backend to hdrs cashier_id.
  assert (Hm : re_search pattern (u "0: 384x512 2 Rexona Roll Ons, ")
               = Some (Some (u "Rexona Roll Ons"))) by (vm_compute; reflexivity).
  split; [exact Hm|]. split; [vm_compute; reflexivity|]. split; [reflexivity|].
  assert (Hline : u "Rexona Roll Ons" ++ u " is detected. Sending request..."
                  = u "Rexona Roll Ons is detected. Sending request...")
    by (vm_compute; reflexivity).
  unfold send_request. rewrite Hm. cbv zeta. rewrite Hline.
  eexists. f_equal.
Qed.

(** A pattern that ends in a lookahead for a character matches nowhere in a
    text without that character. *)
Lemma many_fails {R : Type} (a : atom) (k : str -> option R) (Q : str -> Prop) :
  (forall x s, Q (x :: s) -> Q s) ->
  (forall s, Q s -> k s = None) ->
  forall s, Q s -> many a k s = None.
Proof.
  intros Htail Hk. induction s as [|x s IH]; intros HQ; cbn; [reflexivity|].
  destruct (atom_matches a x); [|reflexivity].
  rewrite (IH (Htail _ _ HQ)). apply Hk. eapply Htail, HQ.
Qed.

Lemma fewest_fails {R : Type} (a : atom) (k : str -> str -> option R) (Q : str -> Prop) :
  (forall x s, Q (x :: s) -> Q s) ->
  (forall taken s, Q s -> k taken s = None) ->
  forall s taken, Q s -> fewest a k taken s = None.
Proof.
  intros Htail Hk. induction s as [|x s IH]; intros taken HQ; cbn; [reflexivity|].
  destruct (atom_matches a x); [|reflexivity].
  rewrite (Hk _ _ (Htail _ _ HQ)). apply IH. eapply Htail, HQ.
Qed.

Lemma match_at_needs_lookahead (c : char) (p : list node) :
  forall g s, ~ In c s -> match_at (p ++ [Ahead (Lit c)]) g s = None.
Proof.
  assert (Htail : forall (x : char) s, ~ In c (x :: s) -> ~ In c s)
    by (intros x s H Hin; apply H; right; exact Hin).
  induction p as [|[a|a|a|a] p IH]; intros g s Hs; cbn [app match_at].
  - destruct s as [|x s]; [reflexivity|]. cbn.
    destruct (N.eqb_spec x c) as [->|]; [|reflexivity].
    exfalso. apply Hs. left. reflexivity.
  - destruct s as [|x s]; [reflexivity|].
    destruct (atom_matches a x); [|reflexivity]. apply IH. eapply Htail, Hs.
  - apply (many_fails a _ (fun s => ~ In c s) Htail); [|exact Hs].
    intros s' Hs'. apply IH. exact Hs'.
  - apply (fewest_fails a _ (fun s => ~ In c s) Htail); [|exact Hs].
    intros taken s' Hs'. apply IH. exact Hs'.
  - destruct s as [|x s]; [reflexivity|].
    destruct (atom_matches a x); [|reflexivity]. apply IH. exact Hs.
Qed.

(** A summary without a comma has no match of the pattern. *)
Lemma no_comma_no_match (s : str) :
  ~ In 0x2c%N s -> re_search pattern s = None.
Proof.
  change pattern with
    ([One Digit; One (lit ":"); One Space; Many Digit; One (lit "x"); Many Digit;
      One Space; Many Digit; One Space; Group Dot] ++ [Ahead (Lit 0x2c%N)]).
  induction s as [|x s IH]; intros Hs; cbn [re_search];
    rewrite (match_at_needs_lookahead _ _ _ _ Hs); [reflexivity|].
  apply IH. intros Hin. apply Hs. right. exact Hin.
Qed.

(** A match of the pattern always carries its group 1. *)
Lemma many_found {R : Type} (a : atom) (k : str -> option R) :
  forall s r, many a k s = Some r -> exists s', k s' = Some r.
Proof.
  induction s as [|x s IH]; intros r; cbn; [discriminate|].
  destruct (atom_matches a x); [|discriminate].
  destruct (many a k s) as [r'|] eqn:Hm.
  - intros H. injection H as <-. apply IH. reflexivity.
  - intros H. exists s. exact H.
Qed.

Lemma fewest_found {R : Type} (a : atom) (k : str -> str -> option R) :
  forall s taken r, fewest a k taken s = Some r -> exists taken' s', k taken' s' = Some r.
Proof.
  induction s as [|x s IH]; intros taken r; cbn; [discriminate|].
  destruct (atom_matches a x); [|discriminate].
  destruct (k (taken ++ [x]) s) as [r'|] eqn:Hk.
  - intros H. injection H as <-. eauto.
  - apply IH.
Qed.

Lemma match_at_group (p : list node) :
  forall g s r,
    match_at p g s = Some r ->
    g <> None \/ (exists a, In (Group a) p) ->
    r <> None.
Proof.
  induction p as [|[a|a|a|a] p IH]; intros g s r; cbn [match_at].
  - intros H [Hg | (a & [])]. congruence.
  - destruct s as [|x s]; [discriminate|].
    destruct (atom_matches a x); [|discriminate].
    intros H Hor. apply (IH _ _ _ H).
    destruct Hor as [Hg | (b & [Hb | Hb])]; [left; exact Hg | discriminate | right; eauto].
  - intros H Hor. apply many_found in H as (s' & H). apply (IH _ _ _ H).
    destruct Hor as [Hg | (b & [Hb | Hb])]; [left; exact Hg | discriminate | right; eauto].
  - intros H _. apply fewest_found in H as (taken & s' & H). apply (IH _ _ _ H).
    left. discriminate.
  - destruct s as [|x s]; [discriminate|].
    destruct (atom_matches a x); [|discriminate].
    intros H Hor. apply (IH _ _ _ H).
    destruct Hor as [Hg | (b & [Hb | Hb])]; [left; exact Hg | discriminate | right; eauto].
Qed.

Lemma match_has_group (s : str) : re_search pattern s <> Some None.
Proof.
  induction s as [|x s IH]; cbn [re_search].
  - destruct (match_at pattern None []) as [r|] eqn:H; [|discriminate].
    intros Heq. injection Heq as ->.
    eapply match_at_group; [exact H | | reflexivity].
    right. exists Dot. unfold pattern. cbn. tauto.
  - destruct (match_at pattern None (x :: s)) as [r|] eqn:H; [|exact IH].
    intros Heq. injection Heq as ->.
    eapply match_at_group; [exact H | | reflexivity].
    right. exists Dot. unfold pattern. cbn. tauto.
Qed.


(** X5. A summary without a comma (an image whose summary lists no class)
    has no match of the pattern, so [send_request] sends nothing for it. *)
Lemma summary_without_comma_is_dropped
  (backend : str -> body -> list (str * str) -> option response)
  (to : str) (hdrs : list (str * str)) (cashier_id : Z) (s : str) :
  ~ In 0x2c%N s -> send_request backend to hdrs cashier_id s = [].
Proof.
  intros Hs. unfold send_request. rewrite (no_comma_no_match s Hs). reflexivity.
Qed.

(** And [send_request] never raises for want of a group. *)
Lemma send_request_has_result
  (backend : str -> body -> list (str * str) -> option response)
  (to : str) (hdrs : list (str * str)) (cashier_id : Z) (s : str) :
  send_request backend to hdrs cashier_id s <> [Raised TypeError].
Proof.
  unfold send_request. pose proof (match_has_group s) as Hg.
  destruct (re_search pattern s) as [[result|]|]; [discriminate | congruence | discriminate].
Qed.

(** ** The resolver *)

Lemma str_eqb_eq (a b : str) : str_eqb a b = true <-> a = b.
Proof.
  revert b. induction a as [|c a IH]; intros [|d b]; cbn; split; intros H;
    try reflexivity; try discriminate.
  - apply andb_true_iff in H as [Hc Ha]. apply N.eqb_eq in Hc. apply IH in Ha.
    congruence.
  - injection H as -> ->. rewrite N.eqb_refl. apply IH. reflexivity.
Qed.

(** [findProductIndex] returns -1 for a name no object has, and otherwise the
    index of an object of that name. *)
Lemma findProductIndex_from_spec (ps : list PredictedProducts) (x : str) :
  forall i, 0 <= i ->
    (findProductIndex_from i ps x = -1 /\ ~ In x (map productName ps))
    \/ (exists k p, findProductIndex_from i ps x = i + Z.of_nat k
                    /\ nth_error ps k = Some p /\ productName p = x).
Proof.
  induction ps as [|q ps IH]; intros i Hi; cbn [findProductIndex_from].
  - left. split; [reflexivity | intros []].
  - unfold getName. destruct (str_eqb (productName q) x) eqn:Hq.
    + right. exists 0%nat, q. apply str_eqb_eq in Hq. cbn. repeat split; [lia | exact Hq].
    + destruct (IH (i + 1) ltac:(lia)) as [[Hidx Hnot] | (k & p & Hidx & Hnth & Hp)].
      * left. split; [exact Hidx|]. cbn. intros [Heq | Hin]; [|tauto].
        apply str_eqb_eq in Heq. congruence.
      * right. exists (S k), p. cbn. repeat split; [lia | exact Hnth | exact Hp].
Qed.

Lemma getitem_nth_error {A : Type} (l : list A) (i : Z) (a : A) :
  0 <= i -> getitem l i = inr a -> nth_error l (Z.to_nat i) = Some a.
Proof.
  intros Hi. unfold getitem.
  destruct (i <? 0) eqn:Hneg; [apply Z.ltb_lt in Hneg; lia|].
  destruct ((i <? 0) || (Z.of_nat (length l) <=? i)); [discriminate|].
  destruct (nth_error l (Z.to_nat i)); [|discriminate].
  unfold ret. congruence.
Qed.

Lemma setitem_names (l : list PredictedProducts) :
  forall k p v,
    nth_error l k = Some p -> productName v = productName p ->
    map productName (setitem l k v) = map productName l.
Proof.
  induction l as [|a l IH]; intros [|k] p v Hnth Hname; cbn in *; try discriminate.
  - congruence.
  - f_equal. eapply IH; eassumption.
Qed.

(** A vote adds a product at the end when its name is new and leaves the
    names as they are otherwise. *)
Lemma vote_names (float_of_str : str -> result float)
  (acc : list PredictedProducts) (x prediction : str) (next : list PredictedProducts) :
  vote float_of_str acc x prediction = inr next ->
  (In x (map productName acc) /\ map productName next = map productName acc)
  \/ (~ In x (map productName acc) /\ map productName next = map productName acc ++ [x]).
Proof.
  unfold vote, findProductIndex.
  destruct (findProductIndex_from_spec acc x 0 ltac:(lia))
    as [[Hidx Hnot] | (k & p & Hidx & Hnth & Hp)]; rewrite Hidx.
  - cbn [Z.eqb Pos.eqb]. destruct (float_of_str prediction) as [e|c]; [discriminate|].
    cbn. intros H. injection H as <-. right. split; [exact Hnot|].
    rewrite map_app. reflexivity.
  - replace (0 + Z.of_nat k =? -1) with false by (symmetry; apply Z.eqb_neq; lia).
    destruct (getitem acc (0 + Z.of_nat k)) as [e|q] eqn:Hget; [discriminate|].
    apply getitem_nth_error in Hget; [|lia].
    replace (Z.to_nat (0 + Z.of_nat k)) with k in * by lia.
    destruct (float_of_str prediction) as [e|c]; [discriminate|].
    cbn. intros H. injection H as <-. left. split.
    + subst x. apply in_map. eapply nth_error_In. exact Hnth.
    + eapply setitem_names; [exact Hget | reflexivity].
Qed.

(** The objects of [predUniqueCls] carry the distinct names of the samples. *)
Lemma votes_names (float_of_str : str -> result float) (samples : list (str * str)) :
  forall acc uniq,
    NoDup (map productName acc) ->
    votes float_of_str acc samples = inr uniq ->
    NoDup (map productName uniq)
    /\ forall n, In n (map productName uniq)
                 <-> In n (map productName acc) \/ In n (map fst samples).
Proof.
  induction samples as [|[x prediction] samples IH]; intros acc uniq Hnd Hv.
  - cbn in Hv. injection Hv as <-. split; [exact Hnd|]. cbn. tauto.
  - cbn [votes] in Hv.
    destruct (vote float_of_str acc x prediction) as [e|next] eqn:Hvote;
      [discriminate|].
    cbn in Hv.
    destruct (vote_names _ _ _ _ _ Hvote) as [[Hin Hsame] | [Hnot Hmore]].
    + destruct (IH next uniq) as [Hnd' Hiff]; [rewrite Hsame; exact Hnd | exact Hv |].
      split; [exact Hnd'|]. intros n. rewrite Hiff, Hsame. cbn.
      split; [tauto|]. intros [H | [H | H]]; [tauto | subst; tauto | tauto].
    + destruct (IH next uniq) as [Hnd' Hiff]; [| exact Hv |].
      * rewrite Hmore. apply NoDup_app; [exact Hnd | repeat constructor; intros [] |].
        intros n Hn [Heq | []]. subst. tauto.
      * split; [exact Hnd'|]. intros n. rewrite Hiff, Hmore, in_app_iff. cbn. tauto.
Qed.

Lemma confident_lengths (float_of_str : str -> result float) (labels : list str) :
  forall kept,
    confident float_of_str labels = inr kept ->
    length (fst kept) = length (snd kept).
Proof.
  induction labels as [|item labels IH]; intros kept H; cbn [confident] in H.
  - injection H as <-. reflexivity.
  - destruct (float_of_str _) as [e|c]; [discriminate|]. cbn [bind] in H.
    destruct (confident float_of_str labels) as [e|rest]; [discriminate|].
    cbn [bind] in H. specialize (IH rest eq_refl).
    destruct (0.50 <=? c)%float; injection H as <-; cbn; congruence.
Qed.

Lemma map_fst_combine {A B : Type} (a : list A) :
  forall b : list B, length a = length b -> map fst (combine a b) = a.
Proof.
  induction a as [|x a IH]; intros [|y b] H; cbn in *; try discriminate; [reflexivity|].
  f_equal. apply IH. congruence.
Qed.

(** A duplicate-free list has two elements exactly when its elements are two
    different values. *)
Lemma two_distinct {A : Type} (l : list A) :
  NoDup l ->
  length l = 2%nat <->
  exists a b, a <> b /\ forall n, In n l <-> n = a \/ n = b.
Proof.
  intros Hnd. split.
  - destruct l as [|a [|b [|c l]]]; cbn; try discriminate. intros _.
    exists a, b. split.
    + inversion Hnd as [|? ? Hnot _]; subst. cbn in Hnot. intros ->. tauto.
    + intros n. split; [intros [H | [H | []]]; auto | intros [H | H]; auto].
  - intros (a & b & Hab & Hiff).
    assert (Hle : (length l <= 2)%nat).
    { change 2%nat with (length [a; b]). apply NoDup_incl_length; [exact Hnd|].
      intros n Hn. apply Hiff in Hn. cbn. destruct Hn; auto. }
    assert (Hge : (2 <= length l)%nat).
    { change 2%nat with (length [a; b]). apply NoDup_incl_length.
      - repeat constructor; cbn; [intros [H | []]; congruence | intros []].
      - intros n [H | [H | []]]; apply Hiff; auto. }
    lia.
Qed.

(** C2, as the code has it. [findMaxTwoClass] takes indices 0 and 1 without
    looking at the counts exactly when [predUniqueCls] has two objects, that
    is when the samples kept by the confidence filter carry exactly two
    different product names, however many samples there are. *)
Theorem short_circuit_iff_two_classes :
  forall (float_of_str : str -> result float) (labels : list str)
         (kept : list str * list str) (uniq : list PredictedProducts),
    confident float_of_str labels = inr kept ->
    votes float_of_str [] (combine (fst kept) (snd kept)) = inr uniq ->
    (first_two uniq = true <->
       exists a b, a <> b /\ forall n, In n (fst kept) <-> n = a \/ n = b)
    /\ (first_two uniq = true -> findMaxTwoClass uniq = (0, 1)).
Proof.
  intros float_of_str labels kept uniq Hkept Huniq.
  destruct (votes_names float_of_str _ [] uniq (NoDup_nil _) Huniq) as [Hnd Hin].
  rewrite (map_fst_combine _ _ (confident_lengths _ _ _ Hkept)) in Hin.
  split.
  - unfold first_two. rewrite Z.eqb_eq.
    rewrite <- (length_map productName uniq).
    transitivity (length (map productName uniq) = 2%nat); [lia|].
    rewrite (two_distinct _ Hnd).
    split; intros (a & b & Hab & Hiff); exists a, b; (split; [exact Hab|]);
      intros n; specialize (Hin n); specialize (Hiff n); cbn in Hin; tauto.
  - intros Hft. unfold findMaxTwoClass. rewrite Hft. reflexivity.
Qed.

Lemma short_circuit_iff_two_classes_witness :
  confident float_of_numeral three_samples
  = inr ([u "B"; u "A"; u "A"], [u "0.90"; u "0.60"; u "0.70"])
  /\ votes float_of_numeral []
           (combine (fst ([u "B"; u "A"; u "A"], [u "0.90"; u "0.60"; u "0.70"]))
                    (snd ([u "B"; u "A"; u "A"], [u "0.90"; u "0.60"; u "0.70"])))
     = inr [Product (u "B") 1 0.9%float; Product (u "A") 2 (0.6 + 0.7)%float]
  /\ findMaxTwoClass [Product (u "B") 1 0.9%float; Product (u "A") 2 (0.6 + 0.7)%float]
     = (0, 1).
Proof.
  assert (H1 : confident float_of_numeral three_samples
               = inr ([u "B"; u "A"; u "A"], [u "0.90"; u "0.60"; u "0.70"]))
    by (vm_compute; reflexivity).
  assert (H2 : votes float_of_numeral []
                 (combine (fst ([u "B"; u "A"; u "A"], [u "0.90"; u "0.60"; u "0.70"]))
                          (snd ([u "B"; u "A"; u "A"], [u "0.90"; u "0.60"; u "0.70"])))
               = inr [Product (u "B") 1 0.9%float; Product (u "A") 2 (0.6 + 0.7)%float])
    by (vm_compute; reflexivity).
  split; [exact H1|]. split; [exact H2|].
  destruct (short_circuit_iff_two_classes float_of_numeral three_samples _ _ H1 H2)
    as [_ Hgo].
  apply Hgo. reflexivity.
Defined.

(** C2, as stated, fails both ways. A buffer of three samples with two
    product names takes the short-circuit: indices (0, 1) are returned where
    the scan of the counts gives (1, 0). A buffer of exactly two samples of
    one product does not: [predUniqueCls] has one object and line 443 runs. *)
Lemma short_circuit_not_by_sample_count :
  length three_samples = 3%nat
  /\ (exists r,
        productDetection float_of_numeral three_samples = inr r
        /\ first_two (predUniqueCls r) = true
        /\ findMaxTwoClass (predUniqueCls r) = (0, 1)
        /\ scanned (predUniqueCls r) = (1, 0))
  /\ length two_samples = 2%nat
  /\ (exists r,
        productDetection float_of_numeral two_samples = inr r
        /\ first_two (predUniqueCls r) = false
        /\ outcome r = OneProduct).
Proof.
  split; [reflexivity|]. split.
  - eexists. split; [vm_compute; reflexivity|].
    repeat split; vm_compute; reflexivity.
  - split; [reflexivity|].
    eexists. split; [vm_compute; reflexivity|].
    split; vm_compute; reflexivity.
Qed.

(** C3. The code on three products seen once (A, 0.99), twice (B, 0.50) and
    three times (C, 0.60): the scan returns indices (2, 0), so the contenders
    are C and A, the product with the fewest votes, and B, which has the
    second highest count, is not considered; the counts differ by 2, the means
    are compared, and A is chosen. *)
Theorem runner_up_lost_on_ascending_counts :
  productDetection float_of_numeral ascending_counts
  = inr (Resolution
           [Product (u "A") 1 0.99%float;
            Product (u "B") 2 (0.5 + 0.5)%float;
            Product (u "C") 3 (0.6 + 0.6 + 0.6)%float]
           (BestMean (u "A") 0.99%float))
  /\ findMaxTwoClass
       [Product (u "A") 1 0.99%float;
        Product (u "B") 2 (0.5 + 0.5)%float;
        Product (u "C") 3 (0.6 + 0.6 + 0.6)%float]
     = (2, 0)
  /\ getPred (Product (u "B") 2 (0.5 + 0.5)%float) = inr (u "B", 0.5%float)
  /\ getPred (Product (u "C") 3 (0.6 + 0.6 + 0.6)%float)
     = inr (u "C", ((0.6 + 0.6 + 0.6) / 3)%float)
  /\ (0.5 <? (0.6 + 0.6 + 0.6) / 3)%float = true.
Proof.
  repeat split; vm_compute; reflexivity.
Qed.


(** A float that compares equal to another is no NaN: it equals itself. *)
Lemma SFcompare_refl (x y : spec_float) :
  SFcompare x y = Some Eq -> SFcompare x x = Some Eq.
Proof.
  destruct x as [sx|sx| |sx mx ex]; cbn.
  - intros _. reflexivity.
  - intros _. destruct sx; reflexivity.
  - destruct y; discriminate.
  - intros _. destruct sx; rewrite Z.compare_refl; 
      rewrite ?Pos.compare_cont_refl; cbn; rewrite ?Pos.compare_refl; reflexivity.
Qed.

(** An exact tie of the two means keeps the first one: [max] returns its
    first argument and the comparison of line 441 holds. *)
Lemma max2_tie (a b : float) :
  (a =? b)%float = true -> max2 a b = a /\ (max2 a b =? a)%float = true.
Proof.
  intros H. unfold max2. rewrite ltb_spec. rewrite eqb_spec in H.
  unfold SFltb, SFeqb in *.
  destruct (SFcompare (Prim2SF a) (Prim2SF b)) as [[| |]|] eqn:Hc; try discriminate.
  split; [reflexivity|].
  rewrite eqb_spec. unfold SFeqb. rewrite (SFcompare_refl _ _ Hc). reflexivity.
Qed.

Lemma SFcompare_eq_sym (x y : spec_float) :
  SFcompare x y = Some Eq -> SFcompare y x = Some Eq.
Proof.
  destruct x as [sx|sx| |sx mx ex], y as [sy|sy| |sy my ey]; cbn; try discriminate;
    try reflexivity.
  all: try (destruct sx, sy; cbn; discriminate || reflexivity).
  all: try (destruct sx; cbn; discriminate || reflexivity).
  all: try (destruct sy; cbn; discriminate || reflexivity).
  change (PosDef.Pos.compare_cont Eq mx my) with (Pos.compare mx my).
  change (PosDef.Pos.compare_cont Eq my mx) with (Pos.compare my mx).
  destruct (Z.compare_spec ex ey) as [->| |]; [|destruct sx, sy; discriminate ..].
  destruct (Pos.compare_spec mx my) as [->| |]; [|destruct sx, sy; discriminate ..].
  rewrite Z.compare_refl, Pos.compare_refl.
  destruct sx, sy; cbn; discriminate || reflexivity.
Qed.

(** A strictly higher second mean wins: [max] returns it and the comparison
    of line 441 fails. *)
Lemma max2_second (a b : float) :
  (a <? b)%float = true -> max2 a b = b /\ (max2 a b =? a)%float = false.
Proof.
  intros H. unfold max2. rewrite H. split; [reflexivity|].
  rewrite ltb_spec in H. rewrite eqb_spec. unfold SFltb, SFeqb in *.
  destruct (SFcompare (Prim2SF b) (Prim2SF a)) as [[| |]|] eqn:Hba; try reflexivity.
  apply SFcompare_eq_sym in Hba. rewrite Hba in H. discriminate.
Qed.

(** The comparison of two floats read the other way round. *)
Lemma SFcompare_swap (x y : spec_float) :
  SFcompare y x = option_map CompOpp (SFcompare x y).
Proof.
  destruct x as [sx|sx| |sx mx ex], y as [sy|sy| |sy my ey]; cbn; try reflexivity.
  all: try (destruct sx, sy; reflexivity).
  all: try (destruct sx; reflexivity).
  all: try (destruct sy; reflexivity).
  change (PosDef.Pos.compare_cont Eq mx my) with (Pos.compare mx my).
  change (PosDef.Pos.compare_cont Eq my mx) with (Pos.compare my mx).
  rewrite (Z.compare_antisym ex ey), (Pos.compare_antisym mx my).
  destruct sx, sy; cbn; try reflexivity;
    destruct (ex ?= ey); cbn; try reflexivity;
    destruct (mx ?= my)%positive; reflexivity.
Qed.

(** A float that compares with another at all is no NaN: it equals itself. *)
Lemma SFcompare_self (x y : spec_float) :
  SFcompare x y <> None -> SFcompare x x = Some Eq.
Proof.
  destruct x as [sx|sx| |sx mx ex]; cbn.
  - intros _. reflexivity.
  - intros _. destruct sx; reflexivity.
  - intros H. congruence.
  - intros _. destruct sx; rewrite Z.compare_refl;
      rewrite ?Pos.compare_cont_refl; cbn; rewrite ?Pos.compare_refl; reflexivity.
Qed.

(** A strictly lower second mean loses: [max] keeps the first mean, which
    equals itself. *)
Lemma max2_first (a b : float) :
  (b <? a)%float = true ->
  (a <? b)%float = false /\ (a =? a)%float = true.
Proof.
  intros H. rewrite ltb_spec in H. rewrite ltb_spec, eqb_spec.
  unfold SFltb, SFeqb in *.
  rewrite (SFcompare_swap (Prim2SF a) (Prim2SF b)) in H.
  destruct (SFcompare (Prim2SF a) (Prim2SF b)) as [[| |]|] eqn:Hc; try discriminate.
  split; [reflexivity|].
  rewrite (SFcompare_self (Prim2SF a) (Prim2SF b)); [reflexivity | congruence].
Qed.

(** X14. Lines 434-441 once the two contenders are known. A count difference
    above 3 ends at line 435 with the first contender. Otherwise the means
    [m1] and [m2] are compared and the outcome is fixed in every case: the
    second contender is named, with its mean, exactly when [m1 < m2]; the
    first is named, with its mean, when [m2 < m1], on a tie, and whenever
    [m1 < m2] fails for a mean [m1] that equals itself; and when [m1] is a
    NaN the second name is paired with [m1]. *)
Lemma choose_between (ps : list PredictedProducts) (i1 i2 : Z)
  (p1 p2 : PredictedProducts) (m1 m2 : float) :
  1 < Z.of_nat (length ps) ->
  findMaxTwoClass ps = (i1, i2) ->
  getitem ps i1 = inr p1 ->
  getitem ps i2 = inr p2 ->
  (3 < getCount p1 - getCount p2 -> choose ps = inr (CountGap i1 i2))
  /\ (getCount p1 - getCount p2 <= 3 ->
      getPred p1 = inr (productName p1, m1) ->
      getPred p2 = inr (productName p2, m2) ->
      choose ps
      = inr (BestMean
               (if (m1 <? m2)%float || negb (m1 =? m1)%float
                then productName p2 else productName p1)
               (if (m1 <? m2)%float then m2 else m1))
      /\ ((m1 <? m2)%float = true ->
          choose ps = inr (BestMean (productName p2) m2))
      /\ ((m2 <? m1)%float = true ->
          choose ps = inr (BestMean (productName p1) m1))
      /\ ((m1 =? m2)%float = true ->
          choose ps = inr (BestMean (productName p1) m1))
      /\ ((m1 <? m2)%float = false -> (m1 =? m1)%float = true ->
          choose ps = inr (BestMean (productName p1) m1))
      /\ ((m1 =? m1)%float = false ->
          choose ps = inr (BestMean (productName p2) m1))).
Proof.
  intros Hlen Hmax H1 H2. unfold choose.
  apply Z.ltb_lt in Hlen. rewrite Hlen, Hmax, H1, H2. cbn [bind].
  split.
  - intros Hgap. apply Z.ltb_lt in Hgap. rewrite Hgap. reflexivity.
  - intros Hclose Hp1 Hp2.
    replace (3 <? getCount p1 - getCount p2) with false
      by (symmetry; apply Z.ltb_ge; exact Hclose).
    rewrite Hp1, Hp2. cbn [bind fst snd].
    assert (Hsecond : (m1 <? m2)%float = true ->
                      max2 m1 m2 = m2 /\ (max2 m1 m2 =? m1)%float = false)
      by apply max2_second.
    assert (Hkeep : (m1 <? m2)%float = false -> max2 m1 m2 = m1)
      by (intros E; unfold max2; rewrite E; reflexivity).
    assert (Hnan : (m1 =? m1)%float = false -> (m1 <? m2)%float = false).
    { intros E. rewrite eqb_spec in E. rewrite ltb_spec. unfold SFeqb, SFltb in *.
      destruct (SFcompare (Prim2SF m1) (Prim2SF m2)) as [c|] eqn:Hc; [|reflexivity].
      rewrite (SFcompare_self (Prim2SF m1) (Prim2SF m2)) in E; [discriminate | congruence]. }
    split; [|split; [|split; [|split; [|split]]]].
    + destruct (m1 <? m2)%float eqn:Hlt.
      * destruct (Hsecond eq_refl) as [-> ->]. reflexivity.
      * rewrite (Hkeep eq_refl). cbn [orb].
        destruct (m1 =? m1)%float; reflexivity.
    + intros Hlt. destruct (Hsecond Hlt) as [-> ->]. reflexivity.
    + intros Hgt. destruct (max2_first m1 m2 Hgt) as [Hlt Hself].
      rewrite (Hkeep Hlt), Hself. reflexivity.
    + intros Htie. destruct (max2_tie m1 m2 Htie) as [-> ->]. reflexivity.
    + intros Hlt Hself. rewrite (Hkeep Hlt), Hself. reflexivity.
    + intros Hself. rewrite (Hkeep (Hnan Hself)), Hself. reflexivity.
Qed.

(** ** More on the tracker *)

(** The bound the empty-frame step keeps: the counter is never negative, and
    it stays below 10 while an enter point is set. *)
Lemma track_detection_bounded (st : session) (d : detection) :
  0 <= noObjectCount st /\ (enter_coordinates st <> None -> noObjectCount st < 10) ->
  0 <= noObjectCount (track_detection st d)
  /\ (enter_coordinates (track_detection st d) <> None
      -> noObjectCount (track_detection st d) < 10).
Proof.
  intros [Hpos Hlt].
  destruct (track_detection_cases st d) as [(_ & _ & ->) | (_ & ->)]; cbn; split;
    auto; lia.
Qed.

Lemma track_detections_bounded (rows : list detection) :
  forall st,
    0 <= noObjectCount st /\ (enter_coordinates st <> None -> noObjectCount st < 10) ->
    0 <= noObjectCount (fold_left track_detection rows st)
    /\ (enter_coordinates (fold_left track_detection rows st) <> None
        -> noObjectCount (fold_left track_detection rows st) < 10).
Proof.
  induction rows as [|d rows IH]; intros st H; [exact H|].
  cbn [fold_left]. apply IH, track_detection_bounded, H.
Qed.

Lemma process_image_bounded (cashier_id : Z) (auth_token : str) (st : session) (f : frame) :
  0 <= noObjectCount st /\ (enter_coordinates st <> None -> noObjectCount st < 10) ->
  let st' := fst (process_image cashier_id auth_token st f) in
  0 <= noObjectCount st' /\ (enter_coordinates st' <> None -> noObjectCount st' < 10).
Proof.
  intros H.
  pose proof (track_detections_bounded (rev (det f)) st H) as H1.
  fold (track_detections st (det f)) in H1.
  destruct (process_image_cases cashier_id auth_token st f)
    as [[_ ->] | [(_ & _ & ->) | (_ & _ & ev & ->)]]; cbn [fst]; auto.
  cbn. split; [tauto | congruence].
Qed.

Lemma process_images_bounded (cashier_id : Z) (auth_token : str) (fs : list frame) :
  forall st,
    0 <= noObjectCount st /\ (enter_coordinates st <> None -> noObjectCount st < 10) ->
    let st' := fst (process_images cashier_id auth_token st fs) in
    0 <= noObjectCount st' /\ (enter_coordinates st' <> None -> noObjectCount st' < 10).
Proof.
  induction fs as [|f fs IH]; intros st H; [exact H|].
  cbn [process_images].
  pose proof (process_image_bounded cashier_id auth_token st f H) as H1.
  destruct (process_image cashier_id auth_token st f) as [st1 ev].
  specialize (IH st1 H1).
  destruct (process_images cashier_id auth_token st1 fs) as [st2 evs].
  exact IH.
Qed.

Lemma debounce_bounded (st : session) (last_det : list detection) :
  0 <= noObjectCount st /\ (enter_coordinates st <> None -> noObjectCount st < 10) ->
  0 <= noObjectCount (debounce st last_det)
  /\ (enter_coordinates (debounce st last_det) <> None
      -> noObjectCount (debounce st last_det) < 10).
Proof.
  intros [Hpos Hlt]. unfold debounce.
  destruct (Nat.eqb (length last_det) 0); [|auto].
  destruct (10 <=? noObjectCount st + 1) eqn:Hten; cbn [andb].
  - destruct (enter_coordinates st) as [en|]; cbn; split; try lia; congruence.
  - apply Z.leb_gt in Hten. cbn. split; lia.
Qed.

Lemma iteration_bounded (cashier_id : Z) (auth_token : str) (st : session) (b : batch) :
  0 <= noObjectCount st /\ (enter_coordinates st <> None -> noObjectCount st < 10) ->
  let st' := fst (iteration cashier_id auth_token st b) in
  0 <= noObjectCount st' /\ (enter_coordinates st' <> None -> noObjectCount st' < 10).
Proof.
  intros H. unfold iteration.
  pose proof (process_images_bounded cashier_id auth_token (images b) st H) as H1.
  destruct (process_images cashier_id auth_token st (images b)) as [st1 evs].
  apply debounce_bounded. exact H1.
Qed.

Lemma run_loop_bounded (cashier_id : Z) (auth_token : str) (bs : list batch) :
  forall st,
    0 <= noObjectCount st /\ (enter_coordinates st <> None -> noObjectCount st < 10) ->
    let st' := fst (run_loop cashier_id auth_token st bs) in
    0 <= noObjectCount st' /\ (enter_coordinates st' <> None -> noObjectCount st' < 10).
Proof.
  induction bs as [|b bs IH]; intros st H; [exact H|].
  cbn [run_loop].
  pose proof (iteration_bounded cashier_id auth_token st b H) as H1.
  destruct (iteration cashier_id auth_token st b) as [st1 evs1].
  specialize (IH st1 H1).
  destruct (run_loop cashier_id auth_token st1 bs) as [st2 evs2].
  exact IH.
Qed.

(** X1. In every state a run of the loop reaches, between batches or between
    the images of a batch, [noObjectCount] is not negative, and while an enter
    point is set it is below 10: an open session never has ten empty turns
    on record. *)
Theorem counter_bounded_while_tracking :
  forall (cashier_id : Z) (auth_token : str)
         (history : list batch) (before : list frame),
    let st := state_at cashier_id auth_token history before in
    0 <= noObjectCount st
    /\ (enter_coordinates st <> None -> noObjectCount st < 10).
Proof.
  intros cashier_id auth_token history before. unfold state_at, run.
  apply process_images_bounded, run_loop_bounded. cbn. split; [lia | congruence].
Qed.

(** X2. When an enter point is already set, the rows of an image leave the
    enter point and the counter as they were and set the exit point to the
    centre of the first row of [det]: the rows are read last to first, and
    each one overwrites the exit point. *)
Theorem exit_is_first_row :
  forall (st : session) (d : detection) (rest : list detection),
    enter_coordinates st <> None ->
    track_detections st (d :: rest)
    = Session (enter_coordinates st) (Some (box_x d, box_y d)) (noObjectCount st).
Proof.
  intros st d rest Hset. unfold track_detections.
  cbn [rev]. rewrite fold_left_app. cbn [fold_left].
  destruct (only_exit_updates (rev rest) st (or_introl Hset)) as [He Hn].
  destruct (track_detection_cases (fold_left track_detection (rev rest) st) d)
    as [(Hnone & _) | (_ & ->)]; [congruence|].
  rewrite He, Hn. reflexivity.
Qed.

Lemma exit_is_first_row_witness :
  enter_coordinates (Session (Some (0.2, 0.5)%float) None 4) <> None
  /\ track_detections (Session (Some (0.2, 0.5)%float) None 4)
                      [centred 0.7 0.5; centred 0.3 0.4; centred 0.95 0.1]
     = Session (Some (0.2, 0.5)%float) (Some (0.7, 0.5)%float) 4.
Proof.
  assert (H : enter_coordinates (Session (Some (0.2, 0.5)%float) None 4) <> None)
    by discriminate.
  split; [exact H|].
  exact (exit_is_first_row (Session (Some (0.2, 0.5)%float) None 4) (centred 0.7 0.5)
           [centred 0.3 0.4; centred 0.95 0.1] H).
Defined.

(** A turn on one image without detections. *)
Lemma empty_turn (cashier_id : Z) (auth_token : str) (st : session) (b : batch) :
  more_images b = [] -> det (first_image b) = [] ->
  iteration cashier_id auth_token st b = (debounce st [], []).
Proof.
  destruct b as [f fs]. cbn. intros -> Hdet.
  unfold iteration, images, last_image. cbn.
  unfold process_image. rewrite Hdet. reflexivity.
Qed.

(** X3. Turns on images without detections, one image per turn, raise no
    crossing. With no enter point they only count. With an enter point they
    count up while the counter stays below 10, and the turn that brings it to
    10 clears the session: anchors unset, counter 0. *)
Theorem empty_turns_time_out :
  forall (cashier_id : Z) (auth_token : str) (bs : list batch) (st : session),
    Forall (fun b => more_images b = [] /\ det (first_image b) = []) bs ->
    (enter_coordinates st = None ->
       run_loop cashier_id auth_token st bs
       = (Session None (exit_coordinates st)
                  (noObjectCount st + Z.of_nat (length bs)), []))
    /\ (enter_coordinates st <> None ->
        noObjectCount st + Z.of_nat (length bs) < 10 ->
        run_loop cashier_id auth_token st bs
        = (Session (enter_coordinates st) (exit_coordinates st)
                   (noObjectCount st + Z.of_nat (length bs)), []))
    /\ (enter_coordinates st <> None ->
        noObjectCount st + Z.of_nat (length bs) = 10 -> bs <> [] ->
        run_loop cashier_id auth_token st bs = (Session None None 0, [])).
Proof.
  intros cashier_id auth_token bs.
  induction bs as [|b bs IH]; intros st Hall.
  - cbn. repeat split; intros; try congruence;
      destruct st; cbn in *; subst; rewrite ?Z.add_0_r; reflexivity.
  - inversion Hall as [|? ? [Hone Hdet] Hall']; subst.
    cbn [run_loop]. rewrite (empty_turn _ _ _ _ Hone Hdet).
    cbn [length]. rewrite Nat2Z.inj_succ.
    unfold debounce. cbn [length Nat.eqb].
    split; [|split].
    + intros Hnone. rewrite Hnone, andb_false_r.
      destruct (IH (Session None (exit_coordinates st) (noObjectCount st + 1)) Hall')
        as [H _].
      rewrite (H eq_refl). cbn. do 2 f_equal. lia.
    + intros Hset Hlt.
      replace (10 <=? noObjectCount st + 1) with false
        by (symmetry; apply Z.leb_gt; lia).
      cbn [andb].
      destruct (IH (Session (enter_coordinates st) (exit_coordinates st)
                            (noObjectCount st + 1)) Hall') as (_ & H & _).
      rewrite (H Hset); [|cbn; lia]. cbn. do 2 f_equal. lia.
    + intros Hset Hten _. destruct bs as [|b' bs].
      * cbn in Hten. replace (10 <=? noObjectCount st + 1) with true
          by (symmetry; apply Z.leb_le; lia).
        destruct (enter_coordinates st); [reflexivity | congruence].
      * replace (10 <=? noObjectCount st + 1) with false
          by (symmetry; apply Z.leb_gt; cbn [length] in Hten; lia).
        cbn [andb].
        destruct (IH (Session (enter_coordinates st) (exit_coordinates st)
                              (noObjectCount st + 1)) Hall') as (_ & _ & H).
        rewrite H; [reflexivity | exact Hset | cbn [noObjectCount]; lia | discriminate].
Qed.

Lemma empty_turns_time_out_witness :
  Forall (fun b => more_images b = [] /\ det (first_image b) = [])
         (repeat (single nothing_seen) 3)
  /\ run_loop 7 (u "token") (Session (Some (0.2, 0.5)%float) None 7)
              (repeat (single nothing_seen) 3)
     = (Session None None 0, []).
Proof.
  assert (H : Forall (fun b => more_images b = [] /\ det (first_image b) = [])
                     (repeat (single nothing_seen) 3))
    by (repeat constructor).
  split; [exact H|].
  destruct (empty_turns_time_out 7 (u "token") (repeat (single nothing_seen) 3)
              (Session (Some (0.2, 0.5)%float) None 7) H) as (_ & _ & Hout).
  apply Hout; [discriminate | reflexivity | discriminate].
Defined.

Lemma process_image_event (cashier_id : Z) (auth_token : str)
  (st st' : session) (f : frame) (ev : crossing) :
  process_image cashier_id auth_token st f = (st', Some ev) ->
  det f <> []
  /\ thread ev = ThreadArgs url (headers auth_token) cashier_id (summary f)
  /\ (0.6 <=? abs (fst (difference ev)))%float = true.
Proof.
  unfold process_image. destruct (det f) as [|d rows]; cbn [length Nat.eqb];
    [discriminate|].
  destruct (enter_coordinates _) as [en|]; [|discriminate].
  destruct (exit_coordinates _) as [ex|]; [|discriminate].
  destruct (0.6 <=? abs (fst ex - fst en))%float eqn:Hfar; [|discriminate].
  intros H. injection H as _ <-. cbn. repeat split; [discriminate | exact Hfar].
Qed.

Lemma process_images_events (cashier_id : Z) (auth_token : str) (fs : list frame) :
  forall st ev,
    In ev (snd (process_images cashier_id auth_token st fs)) ->
    exists f,
      In f fs /\ det f <> []
      /\ thread ev = ThreadArgs url (headers auth_token) cashier_id (summary f)
      /\ (0.6 <=? abs (fst (difference ev)))%float = true.
Proof.
  induction fs as [|f fs IH]; intros st ev; cbn [process_images]; [intros []|].
  destruct (process_image cashier_id auth_token st f) as [st1 [e|]] eqn:Hp;
    destruct (process_images cashier_id auth_token st1 fs) as [st2 evs] eqn:Hps;
    cbn [snd]; intros Hin.
  - destruct Hin as [<- | Hin].
    + exists f. split; [left; reflexivity|]. eapply process_image_event. exact Hp.
    + destruct (IH st1 ev) as (f' & Hf' & Hrest); [rewrite Hps; exact Hin|].
      exists f'. split; [right; exact Hf' | exact Hrest].
  - destruct (IH st1 ev) as (f' & Hf' & Hrest); [rewrite Hps; exact Hin|].
    exists f'. split; [right; exact Hf' | exact Hrest].
Qed.

Lemma run_loop_events (cashier_id : Z) (auth_token : str) (bs : list batch) :
  forall st ev,
    In ev (snd (run_loop cashier_id auth_token st bs)) ->
    exists b f,
      In b bs /\ In f (images b) /\ det f <> []
      /\ thread ev = ThreadArgs url (headers auth_token) cashier_id (summary f)
      /\ (0.6 <=? abs (fst (difference ev)))%float = true.
Proof.
  induction bs as [|b bs IH]; intros st ev; cbn [run_loop]; [intros []|].
  unfold iteration.
  destruct (process_images cashier_id auth_token st (images b)) as [st1 evs1] eqn:Hb.
  destruct (run_loop cashier_id auth_token _ bs) as [st2 evs2] eqn:Hr.
  cbn [snd]. intros Hin. apply in_app_or in Hin as [Hin | Hin].
  - destruct (process_images_events cashier_id auth_token (images b) st ev)
      as (f & Hf & Hrest); [rewrite Hb; exact Hin|].
    exists b, f. split; [left; reflexivity|]. split; assumption.
  - destruct (IH (debounce st1 (det (last_image b))) ev) as (b' & f & Hb' & Hrest);
      [rewrite Hr; exact Hin|].
    exists b', f. split; [right; exact Hb' | exact Hrest].
Qed.

(** X4. Every crossing a run raises starts its thread with the backend's
    address, the header "Authorization: Bearer <auth_token>", the cashier id
    of the run and the summary of an image of the run that had detections;
    and the horizontal displacement it records is at least 0.6 in absolute
    value. *)
Theorem crossings_carry_credentials :
  forall (cashier_id : Z) (auth_token : str) (bs : list batch) (ev : crossing),
    In ev (snd (run cashier_id auth_token bs)) ->
    t_url (thread ev) = url
    /\ t_headers (thread ev) = [(u "Authorization", u "Bearer " ++ auth_token)]
    /\ t_cashier_id (thread ev) = cashier_id
    /\ (0.6 <=? abs (fst (difference ev)))%float = true
    /\ exists b f,
         In b bs /\ In f (images b) /\ det f <> [] /\ t_s (thread ev) = summary f.
Proof.
  intros cashier_id auth_token bs ev Hin.
  destruct (run_loop_events cashier_id auth_token bs initial ev Hin)
    as (b & f & Hb & Hf & Hdet & Hthread & Hfar).
  rewrite Hthread. cbn. repeat split; [exact Hfar|].
  exists b, f. auto.
Qed.

Lemma crossings_carry_credentials_witness :
  In (Crossing ((0.9 - 0.2)%float, (0.5 - 0.5)%float)
               (ThreadArgs url (headers (u "token")) 7
                           (u "0: 384x512 1 Rexona Roll On, ")))
     (snd (run 7 (u "token") [single (seen_at 0.2 0.5); single (seen_at 0.9 0.5)]))
  /\ t_cashier_id
       (thread (Crossing ((0.9 - 0.2)%float, (0.5 - 0.5)%float)
                         (ThreadArgs url (headers (u "token")) 7
                                     (u "0: 384x512 1 Rexona Roll On, ")))) = 7.
Proof.
  assert (H : In (Crossing ((0.9 - 0.2)%float, (0.5 - 0.5)%float)
                           (ThreadArgs url (headers (u "token")) 7
                                       (u "0: 384x512 1 Rexona Roll On, ")))
                 (snd (run 7 (u "token")
                           [single (seen_at 0.2 0.5); single (seen_at 0.9 0.5)])))
    by (left; reflexivity).
  split; [exact H|].
  destruct (crossings_carry_credentials 7 (u "token") _ _ H) as (_ & _ & Hid & _).
  exact Hid.
Defined.

(** ** More on the request *)

Lemma summary_without_comma_is_dropped_witness :
  ~ In 0x2c%N (u "0: 384x512 ")
  /\ send_request (fun _ _ _ => Some (Response 200 (u "ok"))) url
                  (headers (u "token")) 7 (u "0: 384x512 ") = [].
Proof.
  assert (H : ~ In 0x2c%N (u "0: 384x512 "))
    by (vm_compute; intros Hin; repeat (destruct Hin as [Hin | Hin]; [discriminate|]);
        exact Hin).
  split; [exact H|].
  exact (summary_without_comma_is_dropped (fun _ _ _ => Some (Response 200 (u "ok")))
           url (headers (u "token")) 7 (u "0: 384x512 ") H).
Defined.

(** Where [a+] hands over to the rest of the pattern. *)
Lemma many_found_at {R : Type} (a : atom) (k : str -> option R) :
  forall s r, many a k s = Some r -> exists pre s', s = pre ++ s' /\ k s' = Some r.
Proof.
  induction s as [|x s IH]; intros r; cbn; [discriminate|].
  destruct (atom_matches a x); [|discriminate].
  destruct (many a k s) as [r'|] eqn:Hm.
  - intros H. injection H as <-. destruct (IH r' eq_refl) as (pre & s' & -> & Hk).
    exists (x :: pre), s'. auto.
  - intros H. exists [x], s. auto.
Qed.

(** What a lazy group followed by a lookahead for [c] takes: the shortest
    non-empty run that a [c] follows. *)
Lemma fewest_before {a : atom} {c : char} :
  forall s taken r,
    fewest a (fun taken rest => match_at [Ahead (Lit c)] (Some taken) rest) taken s
    = Some r ->
    exists g post,
      s = g ++ c :: post /\ r = Some (taken ++ g) /\ g <> []
      /\ Forall (fun x => atom_matches a x = true) g /\ ~ In c (tl g).
Proof.
  induction s as [|x s IH]; intros taken r; cbn [fewest]; [discriminate|].
  destruct (atom_matches a x) eqn:Hx; [|discriminate].
  cbv beta. intros H.
  match type of H with
  | match ?m with _ => _ end = _ => destruct m as [r'|] eqn:Hk
  end.
  - injection H as <-. cbn in Hk.
    destruct s as [|y post]; [discriminate|]. cbn in Hk.
    destruct (N.eqb_spec y c) as [->|]; [|discriminate]. injection Hk as <-.
    exists [x], post. repeat split; auto. discriminate.
  - destruct (IH _ _ H) as (g & post & -> & -> & Hg & Hall & Htl).
    exists (x :: g), post. rewrite <- app_assoc. repeat split; auto; [discriminate|].
    cbn [tl]. destruct g as [|y g]; [congruence|]. cbn in Hk.
    intros [-> | Hin]; [|cbn in Htl; tauto].
    cbn in Hk. rewrite N.eqb_refl in Hk. discriminate.
Qed.

(** A pattern made of single characters and greedy runs, then a lazy group
    and a lookahead: where it matches, and what its group holds. *)
Lemma match_at_group_text (a : atom) (c : char) (p : list node) :
  Forall (fun n => match n with One _ | Many _ => True | _ => False end) p ->
  forall g0 s r,
    match_at (p ++ [Group a; Ahead (Lit c)]) g0 s = Some r ->
    exists pre g post,
      s = pre ++ g ++ c :: post /\ r = Some g /\ g <> []
      /\ Forall (fun x => atom_matches a x = true) g /\ ~ In c (tl g).
Proof.
  induction 1 as [|n p Hn _ IH]; intros g0 s r; cbn [app match_at].
  - intros H. destruct (fewest_before _ _ _ H) as (g & post & -> & -> & Hrest).
    exists [], g, post. auto.
  - destruct n as [b|b|b|b]; try contradiction.
    + destruct s as [|x s]; [discriminate|].
      destruct (atom_matches b x); [|discriminate].
      intros H. destruct (IH _ _ _ H) as (pre & g & post & -> & Hrest).
      exists (x :: pre), g, post. auto.
    + intros H. apply many_found_at in H as (pre0 & s' & -> & H).
      destruct (IH _ _ _ H) as (pre & g & post & -> & Hrest).
      exists (pre0 ++ pre), g, post. rewrite <- app_assoc. auto.
Qed.

(** X6. Whatever [re.search] finds with the pattern of line 331, the text of
    group 1 stands in the summary right before a comma, is not empty, has no
    newline, and has no comma after its first character. *)
Theorem matched_name_shape :
  forall (s g : str),
    re_search pattern s = Some (Some g) ->
    g <> [] /\ ~ In 0xa%N g /\ ~ In 0x2c%N (tl g)
    /\ exists pre post, s = pre ++ g ++ 0x2c%N :: post.
Proof.
  assert (Hat : forall s r, match_at pattern None s = Some r ->
            exists pre g post,
              s = pre ++ g ++ 0x2c%N :: post /\ r = Some g /\ g <> []
              /\ Forall (fun x => atom_matches Dot x = true) g /\ ~ In 0x2c%N (tl g)).
  { intros s r.
    change pattern with
      ([One Digit; One (lit ":"); One Space; Many Digit; One (lit "x"); Many Digit;
        One Space; Many Digit; One Space] ++ [Group Dot; Ahead (Lit 0x2c%N)]).
    apply match_at_group_text. repeat constructor. }
  induction s as [|x s IH]; intros g; cbn [re_search].
  - destruct (match_at pattern None []) as [r|] eqn:Hm; [|discriminate].
    apply Hat in Hm as (pre & g' & post & Hs & _). destruct pre, g'; discriminate.
  - destruct (match_at pattern None (x :: s)) as [r|] eqn:Hm.
    + intros H. injection H as ->.
      apply Hat in Hm as (pre & g' & post & Hs & Hr & Hne & Hdot & Hcomma).
      injection Hr as <-. repeat split; auto.
      * intros Hin. rewrite Forall_forall in Hdot. apply Hdot in Hin. discriminate.
      * exists pre, post. exact Hs.
    + intros H. destruct (IH g H) as (Hne & Hnl & Hcomma & pre & post & ->).
      repeat split; auto. exists (x :: pre), post. reflexivity.
Qed.

Lemma matched_name_shape_witness :
  re_search pattern (u "0: 384x512 2 Rexona Roll Ons, 1 Foo, ")
  = Some (Some (u "Rexona Roll Ons"))
  /\ u "Rexona Roll Ons" <> [].
Proof.
  assert (H : re_search pattern (u "0: 384x512 2 Rexona Roll Ons, 1 Foo, ")
              = Some (Some (u "Rexona Roll Ons"))) by (vm_compute; reflexivity).
  split; [exact H|].
  exact (proj1 (matched_name_shape _ _ H)).
Defined.

(** X7. A call of [send_request] either does nothing (no match), or prints
    the detection line, posts exactly one request, and ends with one more
    event that is no request. The request goes to the given address with the
    given headers and cashier id, and its item name is the text of group 1 as
    matched: [remove_plural] changes nothing of it. *)
Theorem send_request_posts_matched_name :
  forall (backend : str -> body -> list (str * str) -> option response)
         (to : str) (hdrs : list (str * str)) (cashier_id : Z) (s : str),
    (re_search pattern s = None
     /\ send_request backend to hdrs cashier_id s = [])
    \/ (exists g last,
          re_search pattern s = Some (Some g)
          /\ send_request backend to hdrs cashier_id s
             = [Printed (g ++ u " is detected. Sending request...");
                Posted to (Body cashier_id g) hdrs;
                last]
          /\ match last with Posted _ _ _ => False | _ => True end).
Proof.
  intros backend to hdrs cashier_id s. unfold send_request.
  pose proof (match_has_group s) as Hg.
  destruct (re_search pattern s) as [[g|]|]; [right | congruence | left; auto].
  cbv zeta. destruct (backend to (Body cashier_id g) hdrs) as [answer|].
  - destruct (status_code answer =? 200); eexists _, _; repeat split.
  - eexists _, _. repeat split.
Qed.

(** ** From the rows of an image to the name in the request *)

Lemma insert_class_In (c : Z) (cs : list Z) (x : Z) :
  In x (insert_class c cs) <-> x = c \/ In x cs.
Proof.
  induction cs as [|d cs IH]; cbn.
  - intuition congruence.
  - destruct (Z.ltb_spec c d); [cbn; intuition congruence|].
    destruct (Z.eqb_spec c d); [subst; cbn; intuition congruence|].
    cbn. rewrite IH. intuition congruence.
Qed.

Lemma insert_class_sorted (c : Z) (cs : list Z) :
  StronglySorted Z.lt cs -> StronglySorted Z.lt (insert_class c cs).
Proof.
  induction 1 as [|d cs Hs IH Hd]; cbn.
  - repeat constructor.
  - destruct (Z.ltb_spec c d).
    + constructor; [constructor; assumption|].
      constructor; [assumption|].
      rewrite Forall_forall in *. intros y Hy. specialize (Hd y Hy). lia.
    + destruct (Z.eqb_spec c d); [constructor; assumption|].
      constructor; [exact IH|].
      rewrite Forall_forall in *. intros y Hy.
      apply insert_class_In in Hy as [-> | Hy]; [lia | auto].
Qed.

(** The class ids come out ascending, each once, and are those of the rows. *)
Lemma unique_spec (classes : list Z) :
  StronglySorted Z.lt (unique classes)
  /\ forall x, In x (unique classes) <-> In x classes.
Proof.
  induction classes as [|c classes [Hs Hin]]; cbn.
  - split; [constructor | tauto].
  - split; [apply insert_class_sorted, Hs|].
    intros x. rewrite insert_class_In, Hin. intuition congruence.
Qed.

Lemma utf8_decode_ascii (bs : list N) :
  Forall (fun b => (b < 0x80)%N) bs -> utf8_decode bs = bs.
Proof.
  induction 1 as [|b bs Hb _ IH]; [reflexivity|].
  cbn [utf8_decode]. apply N.ltb_lt in Hb. rewrite Hb, IH. reflexivity.
Qed.

Lemma decimal_text (d : Decimal.uint) :
  Forall (fun c => (0x30 <= c <= 0x39)%N)
         (map N_of_ascii (list_ascii_of_string (NilEmpty.string_of_uint d))).
Proof.
  induction d; cbn; constructor; try assumption; cbv; split; discriminate.
Qed.

Lemma ascii_digit_isdecimal (c : char) :
  (0x30 <= c <= 0x39)%N -> isdecimal c = true.
Proof.
  intros H.
  assert (Hc : In c [0x30; 0x31; 0x32; 0x33; 0x34; 0x35; 0x36; 0x37; 0x38; 0x39]%N).
  { cbn. lia. }
  cbn in Hc.
  repeat (destruct Hc as [<- | Hc]; [vm_compute; reflexivity|]). destruct Hc.
Qed.

(** [str(n)] for a count: digits only, and at least one. *)
Lemma str_of_count (n : Z) :
  0 <= n ->
  str_of_int n <> [] /\ Forall (fun c => isdecimal c = true) (str_of_int n).
Proof.
  intros Hn. unfold str_of_int, u.
  assert (Hd : exists d, NilZero.string_of_int (Z.to_int n) = NilZero.string_of_uint d).
  { destruct n as [|p|p]; [eexists; reflexivity | eexists; reflexivity | lia]. }
  destruct Hd as [d ->].
  assert (Hall : Forall (fun c => (0x30 <= c <= 0x39)%N)
                   (map N_of_ascii (list_ascii_of_string (NilZero.string_of_uint d)))).
  { unfold NilZero.string_of_uint. destruct d; try apply decimal_text.
    cbn. constructor; [cbv; split; discriminate | constructor]. }
  rewrite utf8_decode_ascii.
  - split.
    + unfold NilZero.string_of_uint. destruct d; cbn; discriminate.
    + eapply Forall_impl; [|exact Hall]. apply ascii_digit_isdecimal.
  - eapply Forall_impl; [|exact Hall]. cbn. intros c Hc. lia.
Qed.

(** A greedy run takes all of a run of matching characters when the rest of
    the pattern matches right after it. *)
Lemma many_takes_run {R : Type} (a : atom) (k : str -> option R)
  (run rest : str) (r : R) :
  run <> [] ->
  Forall (fun x => atom_matches a x = true) run ->
  match rest with [] => True | x :: _ => atom_matches a x = false end ->
  k rest = Some r ->
  many a k (run ++ rest) = Some r.
Proof.
  intros Hne Hall Hrest Hk. induction Hall as [|x run Hx Hall IH]; [congruence|].
  cbn [app many]. rewrite Hx. destruct run as [|y run].
  - cbn [app]. replace (many a k rest) with (@None R); [exact Hk|].
    destruct rest as [|z rest]; cbn; [reflexivity | rewrite Hrest; reflexivity].
  - rewrite IH; [reflexivity | discriminate].
Qed.

(** The lazy group takes a run up to the first comma that follows it. *)
Lemma fewest_takes {a : atom} {c : char} (g post : str) :
  forall taken,
    g <> [] ->
    Forall (fun x => atom_matches a x = true) g ->
    ~ In c (tl g) ->
    fewest a (fun taken rest => match_at [Ahead (Lit c)] (Some taken) rest) taken
           (g ++ c :: post)
    = Some (Some (taken ++ g)).
Proof.
  induction g as [|x g IH]; intros taken Hne Hall Htl; [congruence|].
  inversion Hall as [|? ? Hx Hall']; subst.
  cbn [app fewest]. rewrite Hx. cbv beta. destruct g as [|y g].
  - cbn. rewrite N.eqb_refl. reflexivity.
  - cbn [app match_at atom_matches].
    destruct (N.eqb_spec y c) as [->|Hy]; [exfalso; apply Htl; left; reflexivity|].
    rewrite IH; [rewrite <- app_assoc; reflexivity | discriminate | exact Hall' |].
    intros Hin. apply Htl. right. exact Hin.
Qed.

(** The pattern on a line of the form a webcam run writes. *)
Lemma pattern_on_line (index : char) (height width n g post : str) :
  isdecimal index = true ->
  height <> [] -> Forall (fun c => isdecimal c = true) height ->
  width <> [] -> Forall (fun c => isdecimal c = true) width ->
  n <> [] -> Forall (fun c => isdecimal c = true) n ->
  g <> [] -> ~ In 0xa%N g -> ~ In 0x2c%N (tl g) ->
  match_at pattern None
    ([index; 0x3a; 0x20]%N ++ height ++ [0x78%N] ++ width ++ [0x20%N] ++ n
       ++ [0x20%N] ++ g ++ 0x2c%N :: post)
  = Some (Some g).
Proof.
  intros Hi Hh Hhd Hw Hwd Hn Hnd Hg Hnl Hcomma.
  assert (Hx : isdecimal 0x78%N = false) by (vm_compute; reflexivity).
  assert (Hsp : isdecimal 0x20%N = false) by (vm_compute; reflexivity).
  assert (Hspace : isspace 0x20%N = true) by (vm_compute; reflexivity).
  unfold pattern. change (lit ":") with (Lit 0x3a%N). change (lit "x") with (Lit 0x78%N).
  change (lit ",") with (Lit 0x2c%N).
  cbn [app match_at atom_matches]. rewrite Hi, N.eqb_refl, Hspace.
  apply many_takes_run; [exact Hh | exact Hhd | exact Hx |].
  cbn [match_at atom_matches]. rewrite N.eqb_refl.
  apply many_takes_run; [exact Hw | exact Hwd | exact Hsp |].
  cbn [match_at atom_matches]. rewrite Hspace.
  apply many_takes_run; [exact Hn | exact Hnd | exact Hsp |].
  cbn [match_at atom_matches]. rewrite Hspace.
  apply (fewest_takes g post []); [exact Hg | | exact Hcomma].
  rewrite Forall_forall. intros c Hc. cbn.
  destruct (N.eqb_spec c 0xa%N) as [->|]; [contradiction | reflexivity].
Qed.

Lemma add_classes_extends (names : Z -> option str) (rows : list detection)
  (cs : list Z) :
  forall s s', add_classes names rows s cs = Some s' -> exists rest, s' = s ++ rest.
Proof.
  induction cs as [|c cs IH]; intros s s'; cbn [add_classes].
  - intros H. injection H as <-. exists []. rewrite app_nil_r. reflexivity.
  - unfold add_class. destruct (names c) as [name|]; [|discriminate].
    intros H. apply IH in H as [rest ->].
    eexists. rewrite <- !app_assoc. reflexivity.
Qed.

(** X8. The name a webcam run reports. When the text of line 165 is "0: ",
    a height, "x", a width and a blank, and the image has rows, the summary
    written at lines 177-179 starts with the lowest class id among the rows:
    for its name, if that is not empty and has neither comma nor newline, the
    pattern's group 1 is the name, with an "s" appended when the class has
    more than one row, and that text is the item name [send_request] posts,
    whichever row it was that moved. *)
Theorem summary_names_lowest_class :
  forall (names : Z -> option str) (height width : str) (rows : list detection)
         (s : str),
    height <> [] -> Forall (fun c => isdecimal c = true) height ->
    width <> [] -> Forall (fun c => isdecimal c = true) width ->
    rows <> [] ->
    summarise names (u "0: " ++ height ++ u "x" ++ width ++ u " ") rows = Some s ->
    exists (c : Z) (name : str),
      In c (map cls rows)
      /\ (forall d, In d rows -> c <= cls d)
      /\ names c = Some name
      /\ (name <> [] -> ~ In 0x2c%N name -> ~ In 0xa%N name ->
          let item := name ++ (if 1 <? class_count rows c then u "s" else []) in
          re_search pattern s = Some (Some item)
          /\ forall backend to hdrs cashier_id,
               exists last,
                 send_request backend to hdrs cashier_id s
                 = [Printed (item ++ u " is detected. Sending request...");
                    Posted to (Body cashier_id item) hdrs;
                    last]).
Proof.
  intros names height width rows s Hh Hhd Hw Hwd Hrows Hsum.
  unfold summarise in Hsum.
  destruct (unique_spec (map cls rows)) as [Hsorted Hin].
  destruct (unique (map cls rows)) as [|c cs] eqn:Hu.
  { destruct rows as [|d rows]; [congruence|].
    exfalso. apply (proj2 (Hin (cls d))). left. reflexivity. }
  cbn [add_classes] in Hsum. unfold add_class in Hsum.
  destruct (names c) as [name|] eqn:Hname; [|discriminate].
  apply add_classes_extends in Hsum as [rest ->].
  exists c, name. split; [apply Hin; left; reflexivity|]. split.
  { intros d Hd. inversion Hsorted as [|? ? _ Hlow]; subst.
    assert (Hc : In (cls d) (c :: cs)) by (apply Hin, in_map, Hd).
    destruct Hc as [<- | Hc]; [lia|].
    rewrite Forall_forall in Hlow. specialize (Hlow _ Hc). lia. }
  split; [exact Hname|].
  intros Hne Hcomma Hnl item.
  assert (Hcount : 0 <= class_count rows c) by (unfold class_count; lia).
  destruct (str_of_count _ Hcount) as [Hn Hnd].
  assert (Hitem : item <> [] /\ ~ In 0xa%N item /\ ~ In 0x2c%N (tl item)).
  { subst item. destruct name as [|x name]; [congruence|]. cbn [app tl].
    split; [discriminate|].
    destruct (1 <? class_count rows c).
    - change (u "s") with [0x73%N]. split; intros Hbad.
      + cbn in Hbad. rewrite in_app_iff in Hbad. cbn in Hnl, Hbad.
        destruct Hbad as [H | [H | [H | []]]]; [tauto | tauto | discriminate].
      + rewrite in_app_iff in Hbad. cbn in Hcomma, Hbad.
        destruct Hbad as [H | [H | []]]; [tauto | discriminate].
    - rewrite app_nil_r. cbn in Hnl, Hcomma |- *. tauto. }
  destruct Hitem as (Hi1 & Hi2 & Hi3).
  assert (Hmatch : re_search pattern
            (((u "0: " ++ height ++ u "x" ++ width ++ u " ")
                ++ str_of_int (class_count rows c) ++ u " " ++ name
                ++ (if 1 <? class_count rows c then u "s" else []) ++ u ", ") ++ rest)
          = Some (Some item)).
  { change (u "0: ") with [0x30; 0x3a; 0x20]%N. change (u "x") with [0x78%N].
    change (u " ") with [0x20%N]. change (u ", ") with [0x2c; 0x20]%N.
    replace (_ ++ rest) with
      ([0x30; 0x3a; 0x20]%N ++ height ++ [0x78%N] ++ width ++ [0x20%N]
         ++ str_of_int (class_count rows c) ++ [0x20%N] ++ item
         ++ 0x2c%N :: (0x20%N :: rest)).
    2:{ subst item. repeat rewrite <- app_assoc. cbn [app]. reflexivity. }
    assert (Hat := pattern_on_line 0x30%N height width (str_of_int (class_count rows c))
                     item (0x20%N :: rest) ltac:(vm_compute; reflexivity)
                     Hh Hhd Hw Hwd Hn Hnd Hi1 Hi2 Hi3).
    cbn [app] in Hat |- *. cbn [re_search].
    match goal with
    | |- match ?m with _ => _ end = _ =>
        replace m with (Some (Some item)) by (symmetry; exact Hat)
    end.
    reflexivity. }
  split; [exact Hmatch|].
  intros backend to hdrs cashier_id. unfold send_request. rewrite Hmatch. cbv zeta.
  destruct (backend to (Body cashier_id item) hdrs) as [answer|];
    [destruct (status_code answer =? 200)|]; eexists; reflexivity.
Qed.
Lemma summary_names_lowest_class_witness :
  summarise (fun c => if c =? 3 then Some (u "Rexona Roll On")
                      else if c =? 5 then Some (u "Foo") else None)
            (u "0: " ++ u "384" ++ u "x" ++ u "512" ++ u " ")
            [Detection 0.5 0.5 0.1 0.2 0.9 5; Detection 0.2 0.5 0.1 0.2 0.8 3;
             Detection 0.7 0.5 0.1 0.2 0.7 3]
  = Some (u "0: 384x512 2 Rexona Roll Ons, 1 Foo, ")
  /\ re_search pattern (u "0: 384x512 2 Rexona Roll Ons, 1 Foo, ")
     = Some (Some (u "Rexona Roll Ons")).
Proof.
  assert (H : summarise (fun c => if c =? 3 then Some (u "Rexona Roll On")
                                  else if c =? 5 then Some (u "Foo") else None)
                (u "0: " ++ u "384" ++ u "x" ++ u "512" ++ u " ")
                [Detection 0.5 0.5 0.1 0.2 0.9 5; Detection 0.2 0.5 0.1 0.2 0.8 3;
                 Detection 0.7 0.5 0.1 0.2 0.7 3]
              = Some (u "0: 384x512 2 Rexona Roll Ons, 1 Foo, "))
    by (vm_compute; reflexivity).
  split; [exact H|].
  assert (Hd : forall t : string,
             forallb isdecimal (u t) = true ->
             Forall (fun c => isdecimal c = true) (u t))
    by (intros t Ht; apply Forall_forall; intros c Hc;
        exact (proj1 (forallb_forall isdecimal (u t)) Ht c Hc)).
  assert (Hh : u "384" <> []) by (vm_compute; discriminate).
  assert (Hw : u "512" <> []) by (vm_compute; discriminate).
  assert (Hrows : [Detection 0.5 0.5 0.1 0.2 0.9 5; Detection 0.2 0.5 0.1 0.2 0.8 3;
                   Detection 0.7 0.5 0.1 0.2 0.7 3] <> []) by discriminate.
  destruct (summary_names_lowest_class _ (u "384") (u "512") _ _
              Hh (Hd "384"%string eq_refl) Hw (Hd "512"%string eq_refl) Hrows H)
    as (c & name & Hin & Hlow & Hname & Hitem).
  destruct Hin as [Hc | [Hc | [Hc | []]]]; cbn in Hc; subst c;
    [specialize (Hlow _ (or_intror (or_introl eq_refl))); cbn in Hlow;
     exfalso; revert Hlow; vm_compute; intros Hlow; apply Hlow; reflexivity | |];
    cbn in Hname; injection Hname as <-;
    exact (proj1 (Hitem ltac:(vm_compute; discriminate)
                        ltac:(vm_compute; intuition discriminate)
                        ltac:(vm_compute; intuition discriminate))).
Defined.

(** ** More on the resolver *)

Lemma split_space_nonempty (s : str) : split_space s <> [].
Proof.
  destruct s as [|c s]; cbn; [discriminate|].
  destruct (c =? 0x20)%N; [discriminate|].
  destruct (split_space s); discriminate.
Qed.

Lemma split_space_app (a b : str) :
  split_space (a ++ 0x20%N :: b) = split_space a ++ split_space b.
Proof.
  induction a as [|c a IH]; cbn [app split_space].
  - rewrite N.eqb_refl. reflexivity.
  - destruct (c =? 0x20)%N; [rewrite IH; reflexivity|].
    rewrite IH. pose proof (split_space_nonempty a) as Hne.
    destruct (split_space a) as [|part parts]; [congruence | reflexivity].
Qed.

Lemma split_space_word (b : str) : ~ In 0x20%N b -> split_space b = [b].
Proof.
  induction b as [|c b IH]; intros Hb; cbn; [reflexivity|].
  destruct (N.eqb_spec c 0x20%N) as [->|]; [exfalso; apply Hb; left; reflexivity|].
  rewrite IH; [reflexivity | intros Hin; apply Hb; right; exact Hin].
Qed.

Lemma join_split_space (s : str) : join_space (split_space s) = s.
Proof.
  induction s as [|c s IH]; cbn [split_space]; [reflexivity|].
  pose proof (split_space_nonempty s) as Hne.
  destruct (N.eqb_spec c 0x20%N) as [->|].
  - destruct (split_space s) as [|part parts]; [congruence|].
    cbn [join_space app] in *. rewrite IH. reflexivity.
  - destruct (split_space s) as [|part parts]; [congruence|].
    cbn [join_space] in *. destruct parts; cbn [app]; rewrite <- IH; reflexivity.
Qed.

(** X9. A label "name conf", whatever blanks the name has, splits back into
    its two parts: the product is the name and the prediction is the text
    after the last blank. *)
Theorem label_splits_at_last_blank :
  forall (name prediction : str),
    ~ In 0x20%N prediction ->
    let parts_se := split_space (name ++ 0x20%N :: prediction) in
    join_space (removelast parts_se) = name
    /\ last parts_se [] = prediction.
Proof.
  intros name prediction Hp parts_se. subst parts_se.
  rewrite split_space_app, (split_space_word _ Hp).
  rewrite removelast_last, last_last, join_split_space. auto.
Qed.

Lemma label_splits_at_last_blank_witness :
  ~ In 0x20%N (u "0.87")
  /\ join_space (removelast (split_space (u "Rexona Roll On" ++ 0x20%N :: u "0.87")))
     = u "Rexona Roll On".
Proof.
  assert (H : ~ In 0x20%N (u "0.87"))
    by (vm_compute; intros Hin;
        repeat (destruct Hin as [Hin | Hin]; [discriminate|]); exact Hin).
  split; [exact H|].
  exact (proj1 (label_splits_at_last_blank (u "Rexona Roll On") (u "0.87") H)).
Defined.

(** X10. The first loop of [productDetection] is a filter: when [float]
    reads the last part of every label, the two lists hold, in order, the
    product and the prediction of the labels whose value is at least 0.50;
    and when the loop raises, the exception is the one [float] raised on the
    last part of one of the labels. *)
Theorem confident_is_filter :
  forall (float_of_str : str -> result float) (labels : list str),
    let product_of := fun item => join_space (removelast (split_space item)) in
    let prediction_of := fun item => last (split_space item) [] in
    let keep := fun item =>
                  match float_of_str (prediction_of item) with
                  | inr c => (0.50 <=? c)%float
                  | inl _ => false
                  end in
    ((forall item, In item labels -> exists c, float_of_str (prediction_of item) = inr c) ->
       confident float_of_str labels
       = inr (map product_of (filter keep labels), map prediction_of (filter keep labels)))
    /\ (forall e, confident float_of_str labels = inl e ->
          exists item, In item labels /\ float_of_str (prediction_of item) = inl e).
Proof.
  intros float_of_str labels product_of prediction_of keep. split.
  - induction labels as [|item labels IH]; intros Hall; [reflexivity|].
    cbn [confident filter]. subst keep. cbv beta.
    destruct (Hall item (or_introl eq_refl)) as [c Hc].
    fold (prediction_of item). rewrite Hc. cbn [bind].
    rewrite IH by (intros i Hi; apply Hall; right; exact Hi). cbn [bind fst snd].
    destruct (0.50 <=? c)%float; reflexivity.
  - induction labels as [|item labels IH]; intros e; cbn [confident]; [discriminate|].
    fold (prediction_of item).
    destruct (float_of_str (prediction_of item)) as [e'|c] eqn:Hc; cbn [bind].
    + intros H. injection H as <-. exists item. split; [left; reflexivity | exact Hc].
    + destruct (confident float_of_str labels) as [e'|kept]; cbn [bind].
      * intros H. injection H as <-. destruct (IH e' eq_refl) as (i & Hi & He).
        exists i. split; [right; exact Hi | exact He].
      * destruct (0.50 <=? c)%float; discriminate.
Qed.

Lemma confident_is_filter_witness :
  (forall item, In item worked_buffer ->
                exists c, float_of_numeral (last (split_space item) []) = inr c)
  /\ confident float_of_numeral worked_buffer
     = inr ([u "A"; u "A"; u "B"], [u "0.60"; u "0.70"; u "0.90"]).
Proof.
  assert (H : forall item, In item worked_buffer ->
                exists c, float_of_numeral (last (split_space item) []) = inr c).
  { intros item [<- | [<- | [<- | [<- | []]]]]; eexists; vm_compute; reflexivity. }
  split; [exact H|].
  rewrite (proj1 (confident_is_filter float_of_numeral worked_buffer) H).
  vm_compute. reflexivity.
Defined.

Lemma findProductIndex_from_first (ps : list PredictedProducts) (x : str) :
  forall i, 0 <= i ->
    (findProductIndex_from i ps x = -1 /\ ~ In x (map productName ps))
    \/ (exists k p, findProductIndex_from i ps x = i + Z.of_nat k
                    /\ nth_error ps k = Some p /\ productName p = x
                    /\ forall j q, (j < k)%nat -> nth_error ps j = Some q ->
                                   productName q <> x).
Proof.
  induction ps as [|q ps IH]; intros i Hi; cbn [findProductIndex_from].
  - left. split; [reflexivity | intros []].
  - unfold getName. destruct (str_eqb (productName q) x) eqn:Hq.
    + right. exists 0%nat, q. apply str_eqb_eq in Hq. cbn.
      repeat split; [lia | exact Hq | intros j q' Hj; lia].
    + assert (Hne : productName q <> x)
        by (intros Heq; apply str_eqb_eq in Heq; congruence).
      destruct (IH (i + 1) ltac:(lia)) as [[Hidx Hnot] | (k & p & Hidx & Hnth & Hp & Hfirst)].
      * left. split; [exact Hidx|]. cbn. intros [Heq | Hin]; tauto.
      * right. exists (S k), p. cbn. repeat split; [lia | exact Hnth | exact Hp |].
        intros [|j] q' Hj Hq'; cbn in Hq'; [congruence|].
        eapply Hfirst; [|exact Hq']. lia.
Qed.

(** X11. [findProductIndex] returns -1 exactly when no object carries the
    name; otherwise it returns the position of the first object that does,
    which is a valid index of the list. *)
Theorem findProductIndex_lookup :
  forall (ps : list PredictedProducts) (x : str),
    (findProductIndex ps x = -1 <-> ~ In x (map productName ps))
    /\ (findProductIndex ps x <> -1 ->
        0 <= findProductIndex ps x < Z.of_nat (length ps)
        /\ exists p,
             nth_error ps (Z.to_nat (findProductIndex ps x)) = Some p
             /\ productName p = x
             /\ forall j q, (j < Z.to_nat (findProductIndex ps x))%nat ->
                            nth_error ps j = Some q -> productName q <> x).
Proof.
  intros ps x. unfold findProductIndex.
  destruct (findProductIndex_from_first ps x 0 ltac:(lia))
    as [[Hidx Hnot] | (k & p & Hidx & Hnth & Hp & Hfirst)]; rewrite Hidx.
  - split; [tauto | congruence].
  - assert (Hk : (k < length ps)%nat) by (apply nth_error_Some; congruence).
    split.
    + split; [lia|]. intros Hnot. exfalso. apply Hnot. subst x.
      apply in_map. eapply nth_error_In. exact Hnth.
    + intros _. split; [lia|]. exists p.
      replace (Z.to_nat (0 + Z.of_nat k)) with k by lia. auto.
Qed.
Lemma findProductIndex_lookup_witness :
  findProductIndex [Product (u "A") 2 1.3%float; Product (u "B") 1 0.9%float] (u "B") <> -1
  /\ 0 <= findProductIndex [Product (u "A") 2 1.3%float; Product (u "B") 1 0.9%float] (u "B")
       < Z.of_nat (length [Product (u "A") 2 1.3%float; Product (u "B") 1 0.9%float]).
Proof.
  assert (H : findProductIndex [Product (u "A") 2 1.3%float; Product (u "B") 1 0.9%float]
                               (u "B") <> -1) by (vm_compute; discriminate).
  split; [exact H|].
  exact (proj1 (proj2 (findProductIndex_lookup
                         [Product (u "A") 2 1.3%float; Product (u "B") 1 0.9%float]
                         (u "B")) H)).
Defined.

Lemma getitem_of_nth {A : Type} (l : list A) (k : nat) (a : A) :
  nth_error l k = Some a -> getitem l (Z.of_nat k) = inr a.
Proof.
  intros Hnth. assert (Hk : (k < length l)%nat) by (apply nth_error_Some; congruence).
  assert (E1 : (Z.of_nat k <? 0) = false) by (apply Z.ltb_ge; lia).
  assert (E2 : (Z.of_nat (length l) <=? Z.of_nat k) = false) by (apply Z.leb_gt; lia).
  unfold getitem. cbv zeta. rewrite E1. cbv iota. rewrite E1, E2. cbn [orb].
  rewrite Nat2Z.id, Hnth. reflexivity.
Qed.

(** What one pass of the second loop does to the list. *)
Lemma vote_step (float_of_str : str -> result float)
  (acc : list PredictedProducts) (x prediction : str) (c : float) :
  float_of_str prediction = inr c ->
  (~ In x (map productName acc)
   /\ vote float_of_str acc x prediction = inr (acc ++ [Product x 1 c]))
  \/ (exists k q,
        nth_error acc k = Some q /\ productName q = x
        /\ vote float_of_str acc x prediction = inr (setitem acc k (set q 1 c))).
Proof.
  intros Hc. unfold vote, findProductIndex.
  destruct (findProductIndex_from_spec acc x 0 ltac:(lia))
    as [[Hidx Hnot] | (k & p & Hidx & Hnth & Hp)]; rewrite Hidx.
  - left. split; [exact Hnot|]. cbn [Z.eqb Pos.eqb]. rewrite Hc. reflexivity.
  - right. exists k, p. split; [exact Hnth|]. split; [exact Hp|].
    replace (0 + Z.of_nat k =? -1) with false by (symmetry; apply Z.eqb_neq; lia).
    cbn [Z.add]. rewrite (getitem_of_nth _ _ _ Hnth). cbn [bind]. rewrite Hc.
    cbn [bind]. rewrite Nat2Z.id. reflexivity.
Qed.

Lemma vote_reads_prediction (float_of_str : str -> result float)
  (acc next : list PredictedProducts) (x prediction : str) :
  vote float_of_str acc x prediction = inr next ->
  exists c, float_of_str prediction = inr c.
Proof.
  unfold vote. destruct (float_of_str prediction) as [e|c]; [|eauto].
  destruct (_ =? -1); [discriminate|].
  destruct (getitem acc _); discriminate.
Qed.

Lemma In_setitem (acc : list PredictedProducts) :
  forall k q v p,
    NoDup (map productName acc) ->
    nth_error acc k = Some q ->
    In p (setitem acc k v) ->
    p = v \/ (In p acc /\ productName p <> productName q).
Proof.
  induction acc as [|a acc IH]; intros [|k] q v p Hnd Hnth Hin; cbn in *;
    try discriminate; inversion Hnd as [|? ? Hnot Hnd']; subst.
  - injection Hnth as <-. destruct Hin as [<- | Hin]; [left; reflexivity|].
    right. split; [right; exact Hin|]. intros Heq. apply Hnot. rewrite <- Heq.
    apply in_map. exact Hin.
  - destruct Hin as [<- | Hin].
    + right. split; [left; reflexivity|]. intros Heq. apply Hnot. rewrite Heq.
      apply in_map. eapply nth_error_In. exact Hnth.
    + destruct (IH k q v p Hnd' Hnth Hin) as [-> | [Hp Hne]]; [left; reflexivity|].
      right. split; [right; exact Hp | exact Hne].
Qed.

Lemma filter_name_cons (n x : str) (l : list str) :
  Z.of_nat (length (filter (str_eqb n) (x :: l)))
  = (if str_eqb n x then 1 else 0) + Z.of_nat (length (filter (str_eqb n) l)).
Proof.
  cbn [filter]. destruct (str_eqb n x); cbn [length]; lia.
Qed.

(** The count an object ends with: what it had, plus the samples of its
    name. *)
Lemma votes_tally (float_of_str : str -> result float) (samples : list (str * str)) :
  forall acc uniq,
    NoDup (map productName acc) ->
    votes float_of_str acc samples = inr uniq ->
    forall p, In p uniq ->
      (exists q, In q acc /\ productName q = productName p
                 /\ count p = count q
                              + Z.of_nat (length (filter (str_eqb (productName p))
                                                         (map fst samples))))
      \/ (~ In (productName p) (map productName acc)
          /\ count p = Z.of_nat (length (filter (str_eqb (productName p))
                                                (map fst samples)))).
Proof.
  induction samples as [|[x prediction] samples IH]; intros acc uniq Hnd Hv p Hp.
  - cbn in Hv. injection Hv as <-. left. exists p. cbn. repeat split; [exact Hp | lia].
  - cbn [votes] in Hv.
    destruct (vote float_of_str acc x prediction) as [e|next] eqn:Hvote; [discriminate|].
    cbn [bind] in Hv.
    destruct (vote_reads_prediction _ _ _ _ _ Hvote) as [c Hc].
    cbn [map fst]. rewrite filter_name_cons.
    destruct (vote_names _ _ _ _ _ Hvote) as [[Hin Hsame] | [Hnot Hmore]];
      destruct (vote_step float_of_str acc x prediction c Hc)
        as [[Hnot' Hnext] | (k & q & Hnth & Hq & Hnext)];
      try tauto; try (exfalso; apply Hnot; subst x; apply in_map;
                      eapply nth_error_In; exact Hnth);
      rewrite Hnext in Hvote; injection Hvote as <-.
    + (* the name was there: object k is replaced *)
      assert (Hnd' : NoDup (map productName (setitem acc k (set q 1 c))))
        by (rewrite Hsame; exact Hnd).
      destruct (IH _ _ Hnd' Hv p Hp) as [(q' & Hq' & Hname & Hcount) | [Hout Hcount]].
      * destruct (In_setitem acc k q _ q' Hnd Hnth Hq') as [-> | [Hacc Hne]].
        -- left. exists q. cbn [count productName set] in Hname, Hcount. split; [eapply nth_error_In; exact Hnth|].
           split; [exact Hname|]. rewrite <- Hname, Hq in Hcount |- *.
           replace (str_eqb x x) with true by (symmetry; apply str_eqb_eq; reflexivity).
           lia.
        -- left. exists q'. split; [exact Hacc|]. split; [exact Hname|].
           replace (str_eqb (productName p) x) with false; [lia|].
           symmetry. apply not_true_is_false. intros Heq. apply str_eqb_eq in Heq.
           congruence.
      * right. rewrite Hsame in Hout. split; [exact Hout|].
        replace (str_eqb (productName p) x) with false; [lia|].
        symmetry. apply not_true_is_false. intros Heq. apply str_eqb_eq in Heq.
        congruence.
    + (* the name is new: an object is added *)
      assert (Hnd' : NoDup (map productName (acc ++ [Product x 1 c])))
        by (rewrite Hmore; apply NoDup_app;
            [exact Hnd | repeat constructor; intros [] |];
            intros n Hn [Heq | []]; subst; tauto).
      destruct (IH _ _ Hnd' Hv p Hp) as [(q' & Hq' & Hname & Hcount) | [Hout Hcount]].
      * apply in_app_or in Hq' as [Hacc | [<- | []]].
        -- left. exists q'. split; [exact Hacc|]. split; [exact Hname|].
           replace (str_eqb (productName p) x) with false; [lia|].
           symmetry. apply not_true_is_false. intros Heq. apply str_eqb_eq in Heq.
           apply Hnot. rewrite <- Heq, <- Hname. apply in_map. exact Hacc.
        -- right. cbn [count productName set] in Hname, Hcount. rewrite <- Hname in Hcount |- *.
           split; [exact Hnot|].
           replace (str_eqb x x) with true by (symmetry; apply str_eqb_eq; reflexivity).
           lia.
      * right. rewrite Hmore, in_app_iff in Hout. cbn in Hout.
        split; [tauto|].
        replace (str_eqb (productName p) x) with false; [lia|].
        symmetry. apply not_true_is_false. intros Heq. apply str_eqb_eq in Heq.
        apply Hout. right. left. congruence.
Qed.

Lemma votes_total (float_of_str : str -> result float) (samples : list (str * str)) :
  forall acc,
    Forall (fun pr => exists c, float_of_str pr = inr c) (map snd samples) ->
    exists uniq, votes float_of_str acc samples = inr uniq.
Proof.
  induction samples as [|[x prediction] samples IH]; intros acc Hall; cbn [votes].
  - eexists. reflexivity.
  - inversion Hall as [|? ? [c Hc] Hall']; subst.
    destruct (vote_step float_of_str acc x prediction c Hc)
      as [[_ ->] | (k & q & _ & _ & ->)]; cbn [bind]; apply IH; exact Hall'.
Qed.

Lemma confident_kept_parse (float_of_str : str -> result float) (labels : list str) :
  forall kept,
    confident float_of_str labels = inr kept ->
    Forall (fun pr => exists c, float_of_str pr = inr c) (snd kept).
Proof.
  induction labels as [|item labels IH]; intros kept H; cbn [confident] in H.
  - injection H as <-. constructor.
  - destruct (float_of_str _) as [e|c] eqn:Hc; [discriminate|]. cbn [bind] in H.
    destruct (confident float_of_str labels) as [e|rest]; [discriminate|].
    cbn [bind] in H. specialize (IH rest eq_refl).
    destruct (0.50 <=? c)%float; injection H as <-; cbn [snd]; [|exact IH].
    constructor; [eauto | exact IH].
Qed.

Lemma map_snd_combine {A B : Type} (a : list A) :
  forall b : list B, length a = length b -> map snd (combine a b) = b.
Proof.
  induction a as [|x a IH]; intros [|y b] H; cbn in *; try discriminate; [reflexivity|].
  f_equal. apply IH. congruence.
Qed.

(** X12. Once the filter has run, the second loop of [productDetection]
    raises nothing, and [predUniqueCls] holds one object per product name
    that was kept: no name twice, every kept name present, and each object's
    count is the number of kept samples of its name, so at least 1. *)
Theorem votes_count_kept_samples :
  forall (float_of_str : str -> result float) (labels : list str)
         (kept : list str * list str),
    confident float_of_str labels = inr kept ->
    exists uniq,
      votes float_of_str [] (combine (fst kept) (snd kept)) = inr uniq
      /\ NoDup (map productName uniq)
      /\ (forall n, In n (map productName uniq) <-> In n (fst kept))
      /\ forall p, In p uniq ->
           count p = Z.of_nat (length (filter (str_eqb (productName p)) (fst kept)))
           /\ 1 <= count p.
Proof.
  intros float_of_str labels kept Hkept.
  pose proof (confident_lengths _ _ _ Hkept) as Hlen.
  destruct (votes_total float_of_str (combine (fst kept) (snd kept)) [])
    as [uniq Huniq].
  { rewrite (map_snd_combine _ _ Hlen). eapply confident_kept_parse. exact Hkept. }
  exists uniq. split; [exact Huniq|].
  destruct (votes_names float_of_str _ [] uniq (NoDup_nil _) Huniq) as [Hnd Hin].
  rewrite (map_fst_combine _ _ Hlen) in Hin.
  split; [exact Hnd|]. split; [intros n; specialize (Hin n); cbn in Hin; tauto|].
  intros p Hp.
  destruct (votes_tally float_of_str _ [] uniq (NoDup_nil _) Huniq p Hp)
    as [(q & [] & _) | [_ Hcount]].
  rewrite (map_fst_combine _ _ Hlen) in Hcount. split; [exact Hcount|].
  rewrite Hcount.
  assert (Hname : In (productName p) (fst kept)).
  { destruct (proj1 (Hin (productName p)) (in_map productName _ _ Hp)) as [[] | H].
    exact H. }
  assert (Hf : In (productName p) (filter (str_eqb (productName p)) (fst kept)))
    by (apply filter_In; split; [exact Hname | apply str_eqb_eq; reflexivity]).
  destruct (filter _ _); [destruct Hf | cbn [length]; lia].
Qed.

Lemma votes_count_kept_samples_witness :
  confident float_of_numeral worked_buffer
  = inr ([u "A"; u "A"; u "B"], [u "0.60"; u "0.70"; u "0.90"])
  /\ exists uniq,
       votes float_of_numeral []
             (combine (fst ([u "A"; u "A"; u "B"], [u "0.60"; u "0.70"; u "0.90"]))
                      (snd ([u "A"; u "A"; u "B"], [u "0.60"; u "0.70"; u "0.90"])))
       = inr uniq
       /\ NoDup (map productName uniq).
Proof.
  assert (H : confident float_of_numeral worked_buffer
              = inr ([u "A"; u "A"; u "B"], [u "0.60"; u "0.70"; u "0.90"]))
    by (vm_compute; reflexivity).
  split; [exact H|].
  destruct (votes_count_kept_samples float_of_numeral worked_buffer _ H)
    as (uniq & Hv & Hnd & _).
  exists uniq. split; [exact Hv | exact Hnd].
Defined.

Lemma scan_step_state (seen : list PredictedProducts) (m : maxima)
  (p : PredictedProducts) :
  1 <= count p ->
  scan_state seen m ->
  scan_state (seen ++ [p]) (scan_step m (Z.of_nat (length seen)) p).
Proof.
  intros Hp [[-> ->] | (Hne & Hi1 & (p1 & Hnth & Hc1) & Hpos & Hmax & Hfirst & Hi2 & Hc2
                         & Hzero & Hsecond)].
  - right. unfold scan_step, getCount. cbn [maxCount1_se length Z.of_nat].
    destruct (Z.ltb_spec 0 (count p)); [|lia].
    cbn [maxIndex1_se maxIndex2_se maxCount1_se maxCount2_se app length Z.of_nat].
    split; [discriminate|]. split; [lia|]. split; [exists p; auto|].
    split; [lia|]. split; [intros q [<- | []]; lia|].
    split; [intros j q Hj; cbn in Hj; lia|].
    cbn. repeat split; lia.
  - assert (Hlt : (Z.to_nat (maxIndex1_se m) < length seen)%nat)
      by (apply nth_error_Some; congruence).
    right. split; [destruct seen; discriminate|].
    unfold scan_step, getCount. rewrite length_app. cbn [length].
    destruct (Z.ltb_spec (maxCount1_se m) (count p)) as [Hnew|Hold].
    + cbn [maxIndex1_se maxIndex2_se maxCount1_se maxCount2_se].
      rewrite Nat2Z.id.
      split; [lia|]. split.
      { exists p. rewrite nth_error_app2, Nat.sub_diag by lia. auto. }
      split; [lia|]. split.
      { intros q Hq. apply in_app_or in Hq as [Hq | [<- | []]]; [|lia].
        specialize (Hmax q Hq). lia. }
      split.
      { intros j q Hj Hq. rewrite nth_error_app1 in Hq by lia.
        apply nth_error_In in Hq. specialize (Hmax q Hq). lia. }
      split; [lia|]. split; [lia|]. split; [intros; lia | intros; lia].
    + destruct (Z.ltb_spec (maxCount2_se m) (count p)) as [Hnew2|Hold2].
      * cbn [maxIndex1_se maxIndex2_se maxCount1_se maxCount2_se].
        split; [lia|]. split.
        { exists p1. rewrite nth_error_app1 by lia. auto. }
        split; [lia|]. split.
        { intros q Hq. apply in_app_or in Hq as [Hq | [<- | []]]; [auto | lia]. }
        split.
        { intros j q Hj Hq. rewrite nth_error_app1 in Hq by lia. eauto. }
        split; [lia|]. split; [lia|]. split; [intros; lia | intros; lia].
      * split; [lia|]. split.
        { exists p1. rewrite nth_error_app1 by lia. auto. }
        split; [lia|]. split.
        { intros q Hq. apply in_app_or in Hq as [Hq | [<- | []]]; [auto | lia]. }
        split.
        { intros j q Hj Hq. rewrite nth_error_app1 in Hq by lia. eauto. }
        split; [lia|]. split; [lia|]. split; [intros; lia | intros; apply Hsecond; lia].
Qed.

Lemma scan_keeps_state (rest : list PredictedProducts) :
  forall seen m,
    Forall (fun p => 1 <= count p) rest ->
    scan_state seen m ->
    scan_state (seen ++ rest) (scan rest (Z.of_nat (length seen)) m).
Proof.
  induction rest as [|p rest IH]; intros seen m Hall Hst; cbn [scan].
  - rewrite app_nil_r. exact Hst.
  - inversion Hall as [|? ? Hp Hall']; subst.
    replace (seen ++ p :: rest) with ((seen ++ [p]) ++ rest)
      by (rewrite <- app_assoc; reflexivity).
    replace (Z.of_nat (length seen) + 1) with (Z.of_nat (length (seen ++ [p])))
      by (rewrite length_app; cbn; lia).
    apply IH; [exact Hall' | apply scan_step_state; assumption].
Qed.

(** X13. On a list whose counts are all at least 1 (such as
    [predUniqueCls]), the scan of [findMaxTwoClass] returns two positions of
    the list, the first of which is the first object with the highest count;
    with two objects or more the two positions differ. *)
Theorem scanned_first_is_most_voted :
  forall (ps : list PredictedProducts),
    ps <> [] ->
    Forall (fun p => 1 <= count p) ps ->
    (exists p1,
       getitem ps (fst (scanned ps)) = inr p1
       /\ (forall p, In p ps -> count p <= count p1)
       /\ (forall j q, (j < Z.to_nat (fst (scanned ps)))%nat ->
                       nth_error ps j = Some q -> count q < count p1))
    /\ (exists p2, getitem ps (snd (scanned ps)) = inr p2)
    /\ ((2 <= length ps)%nat -> fst (scanned ps) <> snd (scanned ps)).
Proof.
  intros ps Hne Hall. unfold scanned.
  pose proof (scan_keeps_state ps [] (Maxima 0 0 0 0) Hall
                (or_introl (conj eq_refl eq_refl))) as Hst.
  cbn [app length Z.of_nat] in Hst.
  destruct Hst as [[-> _] | (_ & Hi1 & (p1 & Hnth & Hc1) & Hpos & Hmax & Hfirst & Hi2
                              & Hc2 & Hzero & Hsecond)]; [congruence|].
  cbn [fst snd]. set (m := scan ps 0 (Maxima 0 0 0 0)) in *.
  split; [|split].
  - exists p1. split.
    + rewrite <- (Z2Nat.id (maxIndex1_se m)) by exact Hi1.
      apply getitem_of_nth. exact Hnth.
    + rewrite Hc1. split; [exact Hmax | exact Hfirst].
  - destruct (nth_error ps (Z.to_nat (maxIndex2_se m))) as [p2|] eqn:Hp2.
    + exists p2. rewrite <- (Z2Nat.id (maxIndex2_se m)) by lia.
      apply getitem_of_nth. exact Hp2.
    + apply nth_error_None in Hp2. lia.
  - intros Hlen. destruct (Z.eq_dec (maxCount2_se m) 0) as [H0 | Hn0].
    + destruct (Hzero H0) as [-> ->]. lia.
    + intros Heq. apply Hsecond; [lia | congruence].
Qed.

Lemma scanned_first_is_most_voted_witness :
  [Product (u "A") 1 0.99%float; Product (u "B") 3 1.5%float;
   Product (u "C") 3 1.8%float] <> []
  /\ Forall (fun p => 1 <= count p)
            [Product (u "A") 1 0.99%float; Product (u "B") 3 1.5%float;
             Product (u "C") 3 1.8%float]
  /\ fst (scanned [Product (u "A") 1 0.99%float; Product (u "B") 3 1.5%float;
                   Product (u "C") 3 1.8%float])
     <> snd (scanned [Product (u "A") 1 0.99%float; Product (u "B") 3 1.5%float;
                      Product (u "C") 3 1.8%float]).
Proof.
  assert (Hne : [Product (u "A") 1 0.99%float; Product (u "B") 3 1.5%float;
                 Product (u "C") 3 1.8%float] <> []) by discriminate.
  assert (Hall : Forall (fun p => 1 <= count p)
                        [Product (u "A") 1 0.99%float; Product (u "B") 3 1.5%float;
                         Product (u "C") 3 1.8%float])
    by (repeat constructor; cbn; discriminate).
  split; [exact Hne|]. split; [exact Hall|].
  apply (proj2 (proj2 (scanned_first_is_most_voted _ Hne Hall))).
  cbn. apply le_S, le_n.
Defined.

Lemma choose_between_witness :
  choose [Product (u "A") 5 4.5%float; Product (u "B") 1 0.9%float;
          Product (u "C") 1 0.8%float]
  = inr (CountGap 0 1)
  /\ (getCount (Product (u "A") 2 1.3%float) - getCount (Product (u "B") 2 1.0%float) <= 3
      /\ (1.0 / 2 <? 1.3 / 2)%float = true
      /\ choose [Product (u "A") 2 1.3%float; Product (u "B") 2 1.0%float;
                 Product (u "C") 1 0.9%float]
         = inr (BestMean (u "A") (1.3 / 2)%float))
  /\ choose [Product (u "A") 2 1.0%float; Product (u "B") 2 1.3%float;
             Product (u "C") 1 0.9%float]
     = inr (BestMean (u "B") (1.3 / 2)%float)
  /\ choose [Product (u "A") 2 1.0%float; Product (u "B") 2 1.0%float;
             Product (u "C") 1 0.9%float]
     = inr (BestMean (u "A") (1.0 / 2)%float).
Proof.
  split; [|split; [|split]].
  - destruct (choose_between
                [Product (u "A") 5 4.5%float; Product (u "B") 1 0.9%float;
                 Product (u "C") 1 0.8%float]
                0 1 (Product (u "A") 5 4.5%float) (Product (u "B") 1 0.9%float)
                0.9%float 0.9%float eq_refl eq_refl eq_refl eq_refl) as [Hgap _].
    apply Hgap. reflexivity.
  - assert (Hclose : getCount (Product (u "A") 2 1.3%float)
                     - getCount (Product (u "B") 2 1.0%float) <= 3)
      by (vm_compute; discriminate).
    assert (Hlower : (1.0 / 2 <? 1.3 / 2)%float = true) by (vm_compute; reflexivity).
    split; [exact Hclose|]. split; [exact Hlower|].
    destruct (choose_between
                [Product (u "A") 2 1.3%float; Product (u "B") 2 1.0%float;
                 Product (u "C") 1 0.9%float]
                0 1 (Product (u "A") 2 1.3%float) (Product (u "B") 2 1.0%float)
                (1.3 / 2)%float (1.0 / 2)%float eq_refl eq_refl eq_refl eq_refl)
      as [_ Hmeans].
    destruct (Hmeans Hclose ltac:(vm_compute; reflexivity) ltac:(vm_compute; reflexivity))
      as (_ & _ & Hfirst & _).
    apply Hfirst. exact Hlower.
  - destruct (choose_between
                [Product (u "A") 2 1.0%float; Product (u "B") 2 1.3%float;
                 Product (u "C") 1 0.9%float]
                0 1 (Product (u "A") 2 1.0%float) (Product (u "B") 2 1.3%float)
                (1.0 / 2)%float (1.3 / 2)%float eq_refl eq_refl eq_refl eq_refl)
      as [_ Hmeans].
    destruct (Hmeans ltac:(vm_compute; discriminate) ltac:(vm_compute; reflexivity)
                     ltac:(vm_compute; reflexivity))
      as (_ & Hsecond & _).
    apply Hsecond. vm_compute. reflexivity.
  - destruct (choose_between
                [Product (u "A") 2 1.0%float; Product (u "B") 2 1.0%float;
                 Product (u "C") 1 0.9%float]
                0 1 (Product (u "A") 2 1.0%float) (Product (u "B") 2 1.0%float)
                (1.0 / 2)%float (1.0 / 2)%float eq_refl eq_refl eq_refl eq_refl)
      as [_ Hmeans].
    destruct (Hmeans ltac:(vm_compute; discriminate) ltac:(vm_compute; reflexivity)
                     ltac:(vm_compute; reflexivity))
      as (_ & _ & _ & Htie & _).
    apply Htie. vm_compute. reflexivity.
Defined.

Lemma confident_raises (float_of_str : str -> result float) (labels : list str) :
  forall e,
    confident float_of_str labels = inl e ->
    exists item, In item labels /\ float_of_str (last (split_space item) []) = inl e.
Proof.
  induction labels as [|item labels IH]; intros e; cbn [confident]; [discriminate|].
  destruct (float_of_str (last (split_space item) [])) as [e'|c] eqn:Hc; cbn [bind].
  - intros H. injection H as <-. exists item. split; [left; reflexivity | exact Hc].
  - destruct (confident float_of_str labels) as [e'|kept]; cbn [bind].
    + intros H. injection H as <-. destruct (IH e' eq_refl) as (i & Hi & He).
      exists i. split; [right; exact Hi | exact He].
    + destruct (0.50 <=? c)%float; discriminate.
Qed.

Lemma votes_counts_positive (float_of_str : str -> result float)
  (samples : list (str * str)) (uniq : list PredictedProducts) :
  votes float_of_str [] samples = inr uniq ->
  Forall (fun p => 1 <= count p) uniq.
Proof.
  intros Hv. apply Forall_forall. intros p Hp.
  destruct (votes_names float_of_str _ [] uniq (NoDup_nil _) Hv) as [_ Hin].
  destruct (votes_tally float_of_str _ [] uniq (NoDup_nil _) Hv p Hp)
    as [(q & [] & _) | [_ Hcount]].
  rewrite Hcount.
  assert (Hname : In (productName p) (map fst samples)).
  { destruct (proj1 (Hin (productName p)) (in_map productName _ _ Hp)) as [[] | H].
    exact H. }
  assert (Hf : In (productName p) (filter (str_eqb (productName p)) (map fst samples)))
    by (apply filter_In; split; [exact Hname | apply str_eqb_eq; reflexivity]).
  destruct (filter _ _); [destruct Hf | cbn [length]; lia].
Qed.

Lemma getPred_raises (p : PredictedProducts) (e : exn) :
  1 <= count p -> getPred p = inl e -> e = OverflowError.
Proof.
  intros Hp. unfold getPred, float_div_int, float_of_int.
  destruct (is_infinity _); cbn [bind raise ret].
  - intros H. injection H as <-. reflexivity.
  - destruct (Z.eqb_spec (count p) 0); [lia|]. discriminate.
Qed.

Lemma scanned_in_range (ps : list PredictedProducts) :
  ps <> [] ->
  Forall (fun p => 1 <= count p) ps ->
  exists p1 p2,
    getitem ps (fst (scanned ps)) = inr p1 /\ getitem ps (snd (scanned ps)) = inr p2.
Proof.
  intros Hne Hall. unfold scanned.
  pose proof (scan_keeps_state ps [] (Maxima 0 0 0 0) Hall
                (or_introl (conj eq_refl eq_refl))) as Hst.
  cbn [app length Z.of_nat] in Hst.
  destruct Hst as [[-> _] | (_ & Hi1 & (p1 & Hnth & _) & _ & _ & _ & Hi2 & _)];
    [congruence|].
  cbn [fst snd]. set (m := scan ps 0 (Maxima 0 0 0 0)) in *.
  destruct (nth_error ps (Z.to_nat (maxIndex2_se m))) as [p2|] eqn:Hp2;
    [|apply nth_error_None in Hp2; lia].
  exists p1, p2. split.
  - rewrite <- (Z2Nat.id (maxIndex1_se m)) by exact Hi1. apply getitem_of_nth, Hnth.
  - rewrite <- (Z2Nat.id (maxIndex2_se m)) by lia. apply getitem_of_nth, Hp2.
Qed.

Lemma choose_raises (ps : list PredictedProducts) (e : exn) :
  Forall (fun p => 1 <= count p) ps ->
  choose ps = inl e -> e = OverflowError.
Proof.
  intros Hall. unfold choose.
  destruct (1 <? Z.of_nat (length ps)) eqn:Hlen;
    [|destruct (Z.of_nat (length ps) =? 1); discriminate].
  apply Z.ltb_lt in Hlen.
  assert (Hget : exists p1 p2,
             getitem ps (fst (findMaxTwoClass ps)) = inr p1
             /\ getitem ps (snd (findMaxTwoClass ps)) = inr p2).
  { unfold findMaxTwoClass, first_two.
    destruct (Z.eqb_spec (Z.of_nat (length ps)) 2) as [H2|_].
    - destruct ps as [|a [|b [|c ps]]]; cbn in H2; try lia.
      exists a, b. split; reflexivity.
    - apply scanned_in_range; [destruct ps; [cbn in Hlen; lia | discriminate] | exact Hall]. }
  destruct Hget as (p1 & p2 & H1 & H2).
  destruct (findMaxTwoClass ps) as [i1 i2]. cbn [fst snd] in H1, H2.
  rewrite H1, H2. cbn [bind].
  destruct (3 <? getCount p1 - getCount p2); [discriminate|].
  assert (Hp1 : 1 <= count p1).
  { rewrite Forall_forall in Hall. apply Hall.
    unfold getitem in H1. destruct (_ || _); [discriminate|].
    destruct (nth_error ps _) eqn:Hn; [|discriminate]. injection H1 as <-.
    eapply nth_error_In. exact Hn. }
  assert (Hp2 : 1 <= count p2).
  { rewrite Forall_forall in Hall. apply Hall.
    unfold getitem in H2. destruct (_ || _); [discriminate|].
    destruct (nth_error ps _) eqn:Hn; [|discriminate]. injection H2 as <-.
    eapply nth_error_In. exact Hn. }
  destruct (getPred p1) as [e1|r1] eqn:Hr1; cbn [bind].
  - intros H. injection H as <-. apply (getPred_raises p1); assumption.
  - destruct (getPred p2) as [e2|r2] eqn:Hr2; cbn [bind]; [|discriminate].
    intros H. injection H as <-. apply (getPred_raises p2); assumption.
Qed.

(** X15. What [productDetection] can raise. If it raises, either [float]
    raised that exception on the last part of one of the labels, or the
    exception is [OverflowError] from turning a count into a float. It never
    fails on an index or on a division by zero. *)
Theorem resolver_raises_only_on_bad_label :
  forall (float_of_str : str -> result float) (labels : list str) (e : exn),
    productDetection float_of_str labels = inl e ->
    (exists item,
       In item labels /\ float_of_str (last (split_space item) []) = inl e)
    \/ e = OverflowError.
Proof.
  intros float_of_str labels e. unfold productDetection.
  destruct (confident float_of_str labels) as [e'|kept] eqn:Hkept; cbn [bind].
  - intros H. injection H as <-. left. eapply confident_raises. exact Hkept.
  - pose proof (confident_lengths _ _ _ Hkept) as Hlen.
    destruct (votes_total float_of_str (combine (fst kept) (snd kept)) [])
      as [uniq Huniq].
    { rewrite (map_snd_combine _ _ Hlen). eapply confident_kept_parse. exact Hkept. }
    rewrite Huniq. cbn [bind].
    destruct (choose uniq) as [e'|v] eqn:Hchoose; cbn [bind]; [|discriminate].
    intros H. injection H as <-. right.
    eapply choose_raises; [|exact Hchoose].
    eapply votes_counts_positive. exact Huniq.
Qed.

Lemma resolver_raises_only_on_bad_label_witness :
  productDetection float_of_numeral [label "A" "0.60"; u "B x"] = inl ValueError
  /\ ((exists item,
         In item [label "A" "0.60"; u "B x"]
         /\ float_of_numeral (last (split_space item) []) = inl ValueError)
      \/ ValueError = OverflowError).
Proof.
  assert (H : productDetection float_of_numeral [label "A" "0.60"; u "B x"]
              = inl ValueError) by (vm_compute; reflexivity).
  split; [exact H|].
  exact (resolver_raises_only_on_bad_label float_of_numeral _ _ H).
Defined.

(** ** The launcher *)

Lemma split_ws_starts_word (c : char) (s : str) :
  isspace c = false -> split_ws (c :: s) <> [].
Proof.
  intros Hc. cbn [split_ws]. rewrite Hc.
  destruct s as [|d s]; [discriminate|].
  destruct (isspace d); [discriminate|].
  destruct (split_ws (d :: s)); discriminate.
Qed.

(** Splitting distributes over a concatenation whose right part starts with
    whitespace. *)
Lemma split_ws_app_r (a : str) (sp : char) (b : str) :
  isspace sp = true ->
  split_ws (a ++ sp :: b) = split_ws a ++ split_ws (sp :: b).
Proof.
  intros Hsp. induction a as [|c a IH]; [reflexivity|].
  cbn [app]. cbn [split_ws]. destruct (isspace c) eqn:Hc; [exact IH|].
  destruct a as [|d a].
  - cbn [app split_ws]. rewrite !Hsp. reflexivity.
  - cbn [app] in *. destruct (isspace d) eqn:Hd.
    + rewrite IH. reflexivity.
    + rewrite IH. pose proof (split_ws_starts_word d a Hd) as Hne.
      destruct (split_ws (d :: a)) as [|w ws]; [congruence | reflexivity].
Qed.

(** And over one whose left part ends with whitespace. *)
Lemma split_ws_app_l (a : str) (sp : char) (b : str) :
  isspace sp = true ->
  split_ws ((a ++ [sp]) ++ b) = split_ws (a ++ [sp]) ++ split_ws b.
Proof.
  intros Hsp. rewrite <- app_assoc. cbn [app].
  rewrite !(split_ws_app_r a sp _ Hsp). cbn [split_ws]. rewrite Hsp.
  cbn [split_ws]. rewrite app_nil_r. reflexivity.
Qed.

Lemma split_ws_word (w : str) :
  w <> [] -> Forall (fun c => isspace c = false) w -> split_ws w = [w].
Proof.
  intros Hne Hall. induction Hall as [|c w Hc Hall IH]; [congruence|].
  cbn [split_ws]. rewrite Hc. destruct w as [|d w]; [reflexivity|].
  inversion Hall as [|? ? Hd _]; subst. rewrite Hd.
  rewrite IH by discriminate. reflexivity.
Qed.

(** X16. The list [execute_command] hands to [Popen]: the fixed words, then
    the whitespace-separated words of the username after "--cashier-id",
    then "--auth-token" and the words of the token. A username or token with
    no whitespace in it is one argument; one with blanks becomes several, and
    an empty one leaves its option without a value. *)
Theorem popen_args_words :
  forall (username auth_token : str),
    popen_args username auth_token
    = [u "python"; u "detect.py"; u "--source"; u "0"; u "--weights"; u "best.pt";
       u "--img"; u "512"; u "--conf"; u "0.5"; u "--cashier-id"]
        ++ split_ws username ++ [u "--auth-token"] ++ split_ws auth_token
    /\ (username <> [] -> Forall (fun c => isspace c = false) username ->
        auth_token <> [] -> Forall (fun c => isspace c = false) auth_token ->
        popen_args username auth_token
        = [u "python"; u "detect.py"; u "--source"; u "0"; u "--weights"; u "best.pt";
           u "--img"; u "512"; u "--conf"; u "0.5"; u "--cashier-id"; username;
           u "--auth-token"; auth_token]).
Proof.
  intros username auth_token.
  assert (Hsp : isspace 0x20%N = true) by (vm_compute; reflexivity).
  assert (Hwords : popen_args username auth_token
            = [u "python"; u "detect.py"; u "--source"; u "0"; u "--weights";
               u "best.pt"; u "--img"; u "512"; u "--conf"; u "0.5"; u "--cashier-id"]
                ++ split_ws username ++ [u "--auth-token"] ++ split_ws auth_token).
  { unfold popen_args, argumanlar.
    change (u "--source 0 --weights best.pt --img 512 --conf 0.5 --cashier-id ")
      with (u "--source 0 --weights best.pt --img 512 --conf 0.5 --cashier-id"
              ++ [0x20%N]).
    rewrite (split_ws_app_l _ _ _ Hsp).
    change (u " --auth-token ") with (0x20%N :: u "--auth-token" ++ [0x20%N]).
    cbn [app]. rewrite (split_ws_app_r username _ _ Hsp).
    cbn [split_ws]. rewrite Hsp.
    rewrite (split_ws_app_l _ _ _ Hsp).
    replace (split_ws (u "--source 0 --weights best.pt --img 512 --conf 0.5 --cashier-id"
                         ++ [0x20%N]))
      with [u "--source"; u "0"; u "--weights"; u "best.pt"; u "--img"; u "512";
            u "--conf"; u "0.5"; u "--cashier-id"] by (vm_compute; reflexivity).
    replace (split_ws (u "--auth-token" ++ [0x20%N])) with [u "--auth-token"]
      by (vm_compute; reflexivity).
    reflexivity. }
  split; [exact Hwords|].
  intros Hu Huc Ht Htc. rewrite Hwords.
  rewrite (split_ws_word _ Hu Huc), (split_ws_word _ Ht Htc). reflexivity.
Qed.

Lemma popen_args_words_witness :
  u "7" <> [] /\ u "abc.def" <> []
  /\ popen_args (u "7") (u "abc.def")
     = [u "python"; u "detect.py"; u "--source"; u "0"; u "--weights"; u "best.pt";
        u "--img"; u "512"; u "--conf"; u "0.5"; u "--cashier-id"; u "7";
        u "--auth-token"; u "abc.def"].
Proof.
  assert (Hu : u "7" <> []) by (vm_compute; discriminate).
  assert (Ht : u "abc.def" <> []) by (vm_compute; discriminate).
  assert (Hc : forall t : string,
             forallb (fun c => negb (isspace c)) (u t) = true ->
             Forall (fun c => isspace c = false) (u t)).
  { intros t Hall. apply Forall_forall. intros c Hin.
    apply negb_true_iff.
    exact (proj1 (forallb_forall _ (u t)) Hall c Hin). }
  split; [exact Hu|]. split; [exact Ht|].
  exact (proj2 (popen_args_words (u "7") (u "abc.def"))
               Hu (Hc "7"%string eq_refl) Ht (Hc "abc.def"%string eq_refl)).
Defined.

Lemma subscript_member (j : json) (key : str) (v : json) :
  subscript j key = inr v <-> exists members, j = JObject members /\ member key members = Some v.
Proof.
  unfold subscript. split.
  - destruct j as [| | | | |members]; try discriminate.
    destruct (member key members) as [v'|] eqn:Hm; [|discriminate].
    intros H. injection H as <-. eauto.
  - intros (members & -> & ->). reflexivity.
Qed.

(** X17. [login] opens the camera window only after an answer of status 200
    whose body decodes to an object that holds "role", "name", "surname" and
    "token" and whose role is the string "CASHIER"; the window then gets the
    username as typed and the token of the answer. In every other case no
    window is opened. *)
Theorem login_opens_only_for_cashier :
  forall (endpoint : str -> str -> str -> option login_answer)
         (written : json -> str) (username password : str)
         (who : str) (auth_token : json),
    In (OpenedWindow who auth_token) (login endpoint written username password)
    <-> who = username
        /\ exists members role name surname,
             endpoint (u "https://recognition-items-backend.up.railway.app/login")
                      username password
             = Some (LoginAnswer 200 (Some (JObject members)))
             /\ member (u "role") members = Some role
             /\ is_cashier role = true
             /\ member (u "name") members = Some name
             /\ member (u "surname") members = Some surname
             /\ member (u "token") members = Some auth_token.
Proof.
  intros endpoint written username password who auth_token. unfold login.
  set (url := u "https://recognition-items-backend.up.railway.app/login").
  split.
  - intros [Hin | Hin]; [discriminate|].
    destruct (endpoint url username password) as [[status body]|] eqn:Hend;
      [|destruct Hin as [H | []]; discriminate].
    cbn [answer_status answer_json] in Hin.
    destruct (Z.eqb_spec status 200) as [->|];
      [|destruct Hin as [H | []]; discriminate].
    destruct body as [j|]; [|destruct Hin as [H | []]; discriminate].
    destruct (subscript j (u "role")) as [e|role] eqn:Hrole;
      [destruct Hin as [H | []]; discriminate|].
    destruct (subscript j (u "name")) as [e|name] eqn:Hname;
      [destruct Hin as [H | []]; discriminate|].
    destruct (subscript j (u "surname")) as [e|surname] eqn:Hsurname;
      [destruct Hin as [H | []]; discriminate|].
    destruct (subscript j (u "token")) as [e|tok] eqn:Htoken;
      [destruct Hin as [H | []]; discriminate|].
    destruct (is_cashier role) eqn:Hcashier;
      [|destruct Hin as [H | []]; discriminate].
    destruct Hin as [H | [H | [H | []]]]; try discriminate.
    injection H as <- <-. split; [reflexivity|].
    apply subscript_member in Hrole as (members & -> & Hrole).
    apply subscript_member in Hname as (m2 & Heq2 & Hname). injection Heq2 as <-.
    apply subscript_member in Hsurname as (m3 & Heq3 & Hsurname). injection Heq3 as <-.
    apply subscript_member in Htoken as (m4 & Heq4 & Htoken). injection Heq4 as <-.
    exists members, role, name, surname. repeat split; assumption.
  - intros (-> & members & role & name & surname & Hend & Hrole & Hcashier & Hname
            & Hsurname & Htoken).
    rewrite Hend. cbn [answer_status answer_json Z.eqb Pos.eqb subscript].
    rewrite Hrole, Hname, Hsurname, Htoken, Hcashier.
    right. right. right. left. reflexivity.
Qed.
